(** * Polaris: the style-prop generator and the Toast timeout

    A shallow embedding of [polaris-react/scripts/get-style-props/index.mjs]
    (the build-time generator that verifies style-prop aliases and emits the
    style sheet scaffolding and the TypeScript types of the Box component) and
    of the timeout computation of the Toast component.

    Conventions of the embedding.
    - A JavaScript array of strings is a [list string].
    - A JavaScript [Set] is the list of entries the language definition gives
      it: [add] appends, [delete] overwrites the entry with a hole, and an
      iterator walks the entries by index, skipping holes.
    - A plain object used as a table is an association list in property
      enumeration order.  Keys are ordinary identifiers (CSS property names,
      alias names, token group names): none is an array index, which
      JavaScript would enumerate first.  Members of [Object.prototype] are
      taken into account where the module builds [inverseAliases]
      ([loadInverseAliases]).
    - Reading a property of [undefined] throws a [TypeError]; a pure
      computation that may do so returns an [option], and the script ends by
      the uncaught error.
    - External packages ([endent], [decamelize], [JSON.stringify], the
      TypeScript compiler, [toPx] of the tokens package) and the tables of
      [data.mjs] are inputs; the functions among them return.
    - The file system grants every [open], [write] and [close].
    - A JavaScript number is a binary64 float. *)

From Stdlib Require Import List String Ascii Bool Arith Lia ZArith.
From Stdlib Require Import Relations Wellfounded Floats.
From Equations Require Import Equations.
Import ListNotations.

Local Open Scope list_scope.
Local Open Scope string_scope.

(** ** JavaScript arrays of strings *)

Module JsArray.

(** [arr.includes(elem)] *)
Definition includes (arr : list string) (elem : string) : bool :=
  existsb (String.eqb elem) arr.

(** [arr.join(sep)] for an array of strings. *)
Definition join (sep : string) (arr : list string) : string :=
  String.concat sep arr.

(** [arrs.flat()] for an array of arrays. *)
Definition flat {A} (arrs : list (list A)) : list A := List.concat arrs.

(** [arr.slice(1)] *)
Definition slice1 {A} (arr : list A) : list A := List.tl arr.

(** [arr.slice(0, -1)] *)
Definition slice_init {A} (arr : list A) : list A := List.removelast arr.

Lemma includes_In arr elem : includes arr elem = true <-> In elem arr.
Proof.
  unfold includes. rewrite existsb_exists. split.
  - intros [x [Hx He]]. apply String.eqb_eq in He. now subst.
  - intros H. exists elem. split; [assumption | apply String.eqb_refl].
Qed.

Lemma includes_not_In arr elem : includes arr elem = false <-> ~ In elem arr.
Proof.
  rewrite <- includes_In. destruct (includes arr elem); split; congruence.
Qed.

End JsArray.

(** ** Strings *)

Module JsString.

(** The line feed and the double quote, which the templates of the
    generator contain. *)
Definition LF : string := String (ascii_of_nat 10) EmptyString.
Definition dq : string := String (ascii_of_nat 34) EmptyString.

(** [s.replace(pat, rep)] with a string pattern: the first occurrence. *)
Fixpoint replace (pat rep s : string) : string :=
  if String.prefix pat s
  then rep ++ String.substring (String.length pat)
                               (String.length s - String.length pat) s
  else match s with
       | EmptyString => EmptyString
       | String c rest => String c (replace pat rep rest)
       end.

(** [' '.repeat(n)] *)
Fixpoint spaces (n : nat) : string :=
  match n with
  | O => EmptyString
  | S m => String " " (spaces m)
  end.

(** How a template literal prints a value that may be [undefined]. *)
Definition interpolate (v : option string) : string :=
  match v with
  | Some text => text
  | None => "undefined"
  end.

End JsString.

(** ** Plain objects used as tables *)

Module Obj.

Definition t (V : Type) : Type := list (string * V).

(** [obj[key]] *)
Fixpoint get {V} (obj : t V) (key : string) : option V :=
  match obj with
  | [] => None
  | (k, v) :: rest => if String.eqb k key then Some v else get rest key
  end.

(** [obj[key] = v]: an existing property keeps its place in the
    enumeration order, a new one goes last. *)
Fixpoint set {V} (obj : t V) (key : string) (v : V) : t V :=
  match obj with
  | [] => [(key, v)]
  | (k, v') :: rest =>
      if String.eqb k key then (k, v) :: rest
      else (k, v') :: set rest key v
  end.

(** [Object.hasOwn(obj, key)] *)
Definition hasOwn {V} (obj : t V) (key : string) : bool :=
  match get obj key with
  | Some _ => true
  | None => false
  end.

Definition keys {V} (obj : t V) : list string := map fst obj.
Definition values {V} (obj : t V) : list V := map snd obj.
Definition entries {V} (obj : t V) : list (string * V) := obj.

(** An association list is an object when no key occurs twice. *)
Definition wf {V} (obj : t V) : Prop := NoDup (keys obj).

End Obj.

(** ** JavaScript sets of strings

    [SetData] is the entry list of a [Set] object.  A deleted entry stays in
    the list as a hole ([None]); this is what lets an iterator that is in
    flight carry on after a deletion. *)

Module JsSet.

Definition SetData := list (option string).

Definition is_entry (elem : string) (slot : option string) : bool :=
  match slot with
  | Some e => String.eqb e elem
  | None => false
  end.

(** [set.has(elem)] *)
Definition has (elem : string) (d : SetData) : bool :=
  existsb (is_entry elem) d.

(** [set.add(elem)] *)
Definition add (elem : string) (d : SetData) : SetData :=
  if has elem d then d else (d ++ [Some elem])%list.

(** [set.delete(elem)] *)
Fixpoint delete (elem : string) (d : SetData) : SetData :=
  match d with
  | [] => []
  | slot :: rest =>
      if is_entry elem slot then None :: rest
      else slot :: delete elem rest
  end.

(** [Array.from(set)], also the order in which [for ... of] visits a set
    that is not modified meanwhile. *)
Fixpoint values (d : SetData) : list string :=
  match d with
  | [] => []
  | Some e :: rest => e :: values rest
  | None :: rest => values rest
  end.

(** [set.size] *)
Definition size (d : SetData) : nat := List.length (values d).

(** [new Set(iterable)] *)
Definition from (elems : list string) : SetData :=
  fold_left (fun d e => add e d) elems [].

Lemma delete_length elem d : List.length (delete elem d) = List.length d.
Proof.
  induction d as [|slot rest IH]; simpl; [reflexivity|].
  destruct (is_entry elem slot); simpl; congruence.
Qed.

End JsSet.

(** ** The three array helpers of the generator *)

Import JsSet.

(** The inner loop of [getArrayIntersection]:
<<
    for (const elem of intersection) {
      if (!arr.includes(elem)) intersection.delete(elem);
    }
>>
    The iterator holds an index [i] into the entries of the very set the body
    deletes from, and compares it with the current number of entries at every
    step. *)
Equations intersection_scan (arr : list string) (d : SetData) (i : nat)
  : SetData by wf (List.length d - i) lt :=
intersection_scan arr d i with lt_dec i (List.length d) := {
  | right _ => d
  | left _ with nth i d None := {
      | None => intersection_scan arr d (S i)
      | Some elem =>
          if JsArray.includes arr elem
          then intersection_scan arr d (S i)
          else intersection_scan arr (delete elem d) (S i) } }.
Next Obligation. lia. Qed.
Next Obligation. rewrite delete_length. lia. Qed.
Next Obligation. lia. Qed.

Definition getArrayIntersection (arrs : list (list string)) : list string :=
  (* Start with a union of all elements. *)
  let union := JsSet.from (JsArray.flat arrs) in
  let intersection := JsSet.from (values union) in
  values (fold_left (fun inter arr => intersection_scan arr inter 0)
                    arrs intersection).

Definition getArrayDifference (arrs : list (list string)) : list string :=
  match arrs with
  | [] => []
  | first :: others =>
      let union := JsSet.from first in
      values (fold_left
                (fun u arr => fold_left (fun u' elem => delete elem u') arr u)
                others union)
  end.

Definition arraysAreEqualSets (arrs : list (list string)) : bool :=
  let firstSet := JsSet.from (List.hd [] arrs) in
  forallb
    (fun arr =>
       let thisSet := JsSet.from arr in
       if negb (Nat.eqb (size firstSet) (size thisSet)) then false
       else forallb (fun elem => has elem thisSet) (values firstSet))
    (JsArray.slice1 arrs).

(** ** The inputs of the generator *)

Import JsString.

(** An entry of the table that [getCSSTypeLonghandProperties] builds from
    the [StandardLonghandProperties] interface of csstype: the documentation
    of the property and the members of its union type, printed. *)
Record LonghandProperty : Type := {
  jsDoc : string;
  type : list string
}.

(** The [getDefault] field of a style prop: absent, a function (kept as its
    source text, which is all the generator reads of it) or a static value. *)
Inductive DefaultValue (V : Type) : Type :=
| NoDefault
| DefaultFunction (source : string)
| DefaultStatic (v : V).
Arguments NoDefault {V}.
Arguments DefaultFunction {V} source.
Arguments DefaultStatic {V} v.

(** An entry of [stylePropConfig]. *)
Record StyleProp (V : Type) : Type := {
  aliases : option (list string);
  getDefault : DefaultValue V
}.
Arguments aliases {V} _.
Arguments getDefault {V} _.

Record Breakpoint : Type := {
  key : string;
  value : option string
}.

(** What [index.mjs] imports.  The packages are functions of the embedding;
    the tables of [data.mjs], the token data and the result of running the
    TypeScript compiler over csstype are data. *)
Class Imports : Type := {
  (** static values of [getDefault] *)
  JSValue : Type;
  (** the tag [endent], applied to the literal parts and to the values of a
      template; every value the generator passes is a string *)
  endent : list string -> list string -> string;
  (** [decamelize(text, separator)] *)
  decamelize : string -> string -> string;
  (** [JSON.stringify] at the types it is used at *)
  JSON_stringify_string : string -> string;
  JSON_stringify_array : list string -> string;
  JSON_stringify_array_indented : list string -> string;
  JSON_stringify_value : JSValue -> string;
  (** [@shopify/polaris-tokens] *)
  tokenizedCSSStyleProps : Obj.t (list string);
  metaThemeDefault_breakpoints : Obj.t string;
  toPx : string -> option string;
  (** [data.mjs] *)
  disallowedCSSProperties : list string;
  disallowedCSSPropertyValues : list string;
  stylePropConfig : Obj.t (StyleProp JSValue);
  (** [stylePropConfig] is an object: it has no key twice *)
  stylePropConfig_object : Obj.wf stylePropConfig;
  modifiersData : Obj.t string;
  cssCustomPropertyNamespace : string;
  styleFile : string;
  typesFile : string;
  (** [BoxValueMapperFactory(map)(value, prop)], printed, and
      [BoxValueMapperFactory.toString()] *)
  BoxValueMapperFactory : Obj.t string -> JSValue -> string -> string;
  BoxValueMapperFactory_toString : string;
  (** the table returned by [getCSSTypeLonghandProperties()] *)
  getCSSTypeLonghandProperties : Obj.t LonghandProperty
}.

(** ** The process: files, the error stream, and how a run ends *)

Inductive FsEvent : Type :=
| Opened (path : string)
| Written (path : string) (text : string)
| Closed (path : string).

Record World : Type := {
  files : string -> option string;
  stderr : list string;
  fsLog : list FsEvent
}.

(** How a computation ends: normally, by [process.exit(code)], or by a
    [TypeError] nobody catches (reading a property of [undefined]). *)
Inductive Completion (A : Type) : Type :=
| Normal (a : A)
| ProcessExit (code : Z)
| UncaughtTypeError.
Arguments Normal {A} a.
Arguments ProcessExit {A} code.
Arguments UncaughtTypeError {A}.

Definition Script (A : Type) : Type := World -> Completion A * World.

Definition ret {A} (a : A) : Script A := fun w => (Normal a, w).

Definition bind {A B} (m : Script A) (k : A -> Script B) : Script B :=
  fun w =>
    match m w with
    | (Normal a, w') => k a w'
    | (ProcessExit code, w') => (ProcessExit code, w')
    | (UncaughtTypeError, w') => (UncaughtTypeError, w')
    end.

Notation "x <- m ;; k" := (bind m (fun x => k))
  (at level 61, m at next level, right associativity).
Notation "m ;; k" := (bind m (fun _ => k))
  (at level 61, right associativity).

(** A pure computation that may read a property of [undefined]. *)
Definition try {A} (r : option A) : Script A :=
  fun w =>
    match r with
    | Some a => (Normal a, w)
    | None => (UncaughtTypeError, w)
    end.

(** [console.error(text)] *)
Definition console_error (text : string) : Script unit :=
  fun w =>
    (Normal tt,
     {| files := files w; stderr := (stderr w ++ [text])%list; fsLog := fsLog w |}).

(** [process.exit(code)] *)
Definition process_exit {A} (code : Z) : Script A :=
  fun w => (ProcessExit code, w).

(** [fs.open(path, 'w+')]: the file is created, or truncated when it
    exists.  The handle is identified with the path it was opened on.
    The embedding covers the runs in which the file system grants the
    operation: a rejected [open], [write] or [close], which ends the real
    script by an unhandled rejection, has no counterpart here. *)
Definition fs_open (path : string) : Script string :=
  fun w =>
    (Normal path,
     {| files := fun p => if String.eqb p path then Some EmptyString
                          else files w p;
        stderr := stderr w;
        fsLog := (fsLog w ++ [Opened path])%list |}).

(** [handle.write(text)]: at the current position, the end of what this
    handle wrote so far. *)
Definition fh_write (handle : string) (text : string) : Script unit :=
  fun w =>
    (Normal tt,
     {| files := fun p =>
                   if String.eqb p handle
                   then Some (match files w handle with
                              | Some old => old ++ text
                              | None => text
                              end)
                   else files w p;
        stderr := stderr w;
        fsLog := (fsLog w ++ [Written handle text])%list |}).

(** [handle.close()] *)
Definition fh_close (handle : string) : Script unit :=
  fun w =>
    (Normal tt,
     {| files := files w; stderr := stderr w;
        fsLog := (fsLog w ++ [Closed handle])%list |}).

(** [xs.map(f)] where [f] may throw: the first failure ends the map. *)
Fixpoint traverse {A B} (f : A -> option B) (xs : list A) : option (list B) :=
  match xs with
  | [] => Some []
  | x :: rest =>
      match f x with
      | None => None
      | Some y =>
          match traverse f rest with
          | None => None
          | Some ys => Some (y :: ys)
          end
      end
  end.

(** ** The literal text of the types file

    The thirteen literal parts of the template that [writeTSProperties]
    writes, in order; between part [k] and part [k+1] stands the value named
    in the comment of part [k+1]. *)

Module TsTemplate.

Import JsString.

Definition part0 : string :=
  "/* THIS FILE IS AUTO GENERATED, DO NOT TOUCH */
import type {StandardLonghandProperties, Globals} from 'csstype';
import type {breakpointsAliases,BreakpointsAlias,TokenizedStyleProps} from '@shopify/polaris-tokens';
import type {PickIndexSignature, OmitIndexSignature, Simplify}  from 'type-fest';

import type {ResponsiveProp, ResponsivePropObject} from '../../utilities/css';

/**
 * Pick only the keys in `PickFrom` which are also in `IntersectWith`.
 */
type PickIntersection<PickFrom, IntersectWith> = Pick<
  PickFrom,
  keyof IntersectWith & keyof PickFrom
>;
".

(** After part 0: the empty string, left in the source to carry a comment. *)
Definition part1 : string :=
  "
// Force Typescript to flatten out a union type to its concrete values
type WrapInObject<T> = T extends unknown ? { key: T } : never;
type Unwrap<T> = T extends { key: unknown } ? T[" ++ dq ++ "key" ++ dq ++ "] : never;

/**
 * The subset of all CSS that we support in Polaris (does not include aliases).
 */
type SupportedCSSStyleProps = Omit<
  // Why Longhand properties and not ALL properties?
  // Shorthand properties need to come before longhand properties so
  // the most specific (longhand) applies based on CSS order.
  // For example, `flex-flow` is a shorthand of `<flex-direction> <flex-wrap>`,
  // and so must come before both of those.
  //
  // Challenges with supporting shorthand properties:
  // a. Cannot use alphabetical sorting (`flex-direction` would end up before
  // `flex-flow` which is invalid).
  // b. Cannot use `property.logicalProperyGroup` from `@webref/css` as that's
  // not reliable (doesn't even exist for the `flex` family of properties).
  // c. Cannot rely on the order of properties in an @webref/css specification
  // containing both long and shorthand variants since later " ++ dq ++ "Delta" ++ dq ++ " specs might
  // introduce new shorthands (and so would come after the longhand when
  // iterating and therefore are invalid).
  // d. mdn data appears to have an incomplete list of shorthand properties.
  //
  // Possible solutions:
  // 1. Use data like { 'flex-flow': ['flex-direction', 'flex-wrap'] } to sort
  //    longhands after shorthands
  // 2. Rely on csstype to filter out all the shorthand properties completely.
  //
  // We're chosing solution #2 here; filtering out shorthand CSS Properties.
  // Note that in a later step where we create " ++ dq ++ "aliases" ++ dq ++ " to enable a builder to
  // pass a single value which acts as a fallback for the props specified as
  // fallbacks. Some of these aliases may have identical names to the shorthand
  // properties, but shouldn't be confused as being the same.
  StandardLonghandProperties,
  DisallowedStandardLonghandProperties
>;

type SimpleMergeByUnion<Destination, Source> = {
  // Grab everything that's in Destination, but not in Source
  [Key in keyof Destination as Key extends keyof Source ? never : Key]: Destination[Key]
} & {
  // Grab everything that's in Source, but not in Destination
  [Key in keyof Source as Key extends keyof Destination ? never : Key]: Source[Key]
} & {
  // Union everything that's in both Source and Destination
  // Doing 'as' here ensures we never end up with a property with type 'never'
  [Key in keyof Destination as Key extends keyof Source ? Key : never]:
    Key extends keyof Source
      ? Destination[Key] | Source[Key]
      // This should never happen thanks to our 'as' above, but is needed to
      // satisfy the indexing of 'Source'.
      : never;
};

// Splitting out index signatures ensures Typescript doesn't incorrectly narrow
// down to just the index signatures themselves, wiping out the more specific
// signatures which we want to keep.
type MergeByUnion<Destination, Source> =
  SimpleMergeByUnion<PickIndexSignature<Destination>, PickIndexSignature<Source>>
  & SimpleMergeByUnion<OmitIndexSignature<Destination>, OmitIndexSignature<Source>>;

/**
 * Some of our supported CSS properties must have a value from
 * `@shopify/polaris-tokens`, so we override those properties here
 *
 * @example
 * `padding-inline-start` can only accept the `space-*` tokens.
 */
type LonghandStyleProps = MergeByUnion<
  SupportedCSSStyleProps,
  // `@shopify/polaris-tokens` may type more CSS properties than we want to
  // support here, so ensure we're only picking the ones we explicityly support
  PickIntersection<TokenizedStyleProps, SupportedCSSStyleProps>
>;

type StyleProps = LonghandStyleProps & StylePropAliases;

/**
 * A combination of raw CSS style props, tokenized style props (derived from
 * `@shopify/polaris-tokens`), and helpful aliases for frequently used props.
 */
export type ResponsiveStyleProps = {
  [K in keyof StyleProps]?: ResponsiveProp<
    // Excluding globally disallowed values as the last thing we do ensures none
    // slip through the cracks in the above type definitions.
    Unwrap<WrapInObject<Exclude<StyleProps[K], (typeof disallowedCSSPropertyValues)[number]>>>
  >;
};

/**
 * A combination of raw CSS style props, tokenized style props (derived from
 * `@shopify/polaris-tokens`), helpful aliases for frequently used props, and
* the modifiers ".

(** After part 1: [joinEnglish(Object.values(modifiersData))]. *)
Definition part2 : string :=
  ".
 */
export type ResponsiveStylePropsWithModifiers = Simplify<
  ResponsiveStyleProps & {
    [K in typeof modifiers[number]]?: ResponsiveStyleProps;
  }
>;

export type ResponsiveStylePropObjects = {
  [T in keyof ResponsiveStyleProps]?: ResponsiveStyleProps[T] extends ResponsiveProp<
    infer V
  >
    ? ResponsivePropObject<V>
    : never;
};

/**
* Polaris specifies some aliases which are used as fallback values when an
* explicit style prop isn't set. Aliases may themselves fallback to other
* aliases. Some aliases may be tokenized values or CSS values, but never both.
*
 * @example
 * `justify` is an alias to `justifyItems` when `justifyItems` isn't set.
*
* <Box justify=" ++ dq ++ "center" ++ dq ++ " />
* =>
* style={{ justifyItems: 'center' }}
*
* <Box justifyItems=" ++ dq ++ "left" ++ dq ++ " justify=" ++ dq ++ "center" ++ dq ++ " />
* =>
* style={{ justifyItems: 'left' }}
*
* @example
* `paddingInline` is an alias to `paddingInlineStart` and
* `paddingInlineEnd` when they aren't set.
*
* <Box paddingInline=" ++ dq ++ "space-400" ++ dq ++ " />
* =>
* style={{
*   paddingInlineStart: '400',
*   paddingInlineEnd: '400',
* }}
*
* <Box paddingInline=" ++ dq ++ "space-400" ++ dq ++ " paddingInlineEnd=" ++ dq ++ "space-600" ++ dq ++ " />
* =>
* style={{
*   paddingInlineStart: '400',
*   paddingInlineEnd: '600',
* }}
*
* @example
* `padding` is an alias to `paddingInline` and `paddingBlock` which themselves
* are aliases to `paddingInlineStart`, `paddingInlineEnd` and
* `paddingBlockStart`, `paddingBlockEnd` respectively.
*
* <Box padding=" ++ dq ++ "space-400" ++ dq ++ " />
* => style={{
*   paddingInlineStart: '400',
*   paddingInlineEnd: '400',
*   paddingBlockStart: '400',
*   paddingBlockEnd: '400',
* }}
*
* <Box paddingBlock=" ++ dq ++ "space-800" ++ dq ++ " padding=" ++ dq ++ "space-400" ++ dq ++ " paddingInlineEnd=" ++ dq ++ "space-600" ++ dq ++ " />
* => style={{
*   paddingInlineStart: '400',
*   paddingInlineEnd: '600',
*   paddingBlockStart: '800',
*   paddingBlockEnd: '800',
* }}
*/
interface StylePropAliases {".

(** After part 2: the members of [StylePropAliases], one per alias. *)
Definition part3 : string :=
  "
};

/**
 * CSS properties we don't support.
 *
 * Note: Some 'disallowed' properties happen to share a name with allowed
 * aliases (eg; `paddingInline` is an alias for `paddingInlineStart` and
 * `paddingInlineEnd`), so they appear in the list below, but are later
 * included in the final `StyleProps` type.
 */
type DisallowedStandardLonghandProperties = ".

(** After part 3: the pick list of [DisallowedStandardLonghandProperties]. *)
Definition part4 : string :=
  ";

/**
 * Props which act as an alias to one or more more specific props.
 *
 * For example; 'padding' is an alias to 'padding-inline-start',
 * 'padding-inline-end', etc, when those individual props aren't set.
 */
export const stylePropAliasFallbacks = {
  ".

(** After part 4: the entries of [stylePropAliasFallbacks]. *)
Definition part5 : string :=
  "
} satisfies { [K in keyof SupportedCSSStyleProps]?: (keyof StyleProps)[] };

// Extract a unique set of just the alias names
export const stylePropAliasNames: (keyof StyleProps)[] = Array.from(
  new Set(Object.values(stylePropAliasFallbacks).flat())
);

type StaticDefaultValue<K extends keyof SupportedCSSStyleProps> =
  | SupportedCSSStyleProps[K]
  | undefined;

type DynamicDefaultValue<K extends keyof SupportedCSSStyleProps> = (
  props: ResponsiveStylePropObjects
) => SupportedCSSStyleProps[K] | undefined;

export type PropDefaults = {
  [K in keyof SupportedCSSStyleProps]?:
    | StaticDefaultValue<K>
    | DynamicDefaultValue<K>;
};

export const stylePropDefaults = {
  ".

(** After part 5: the entries of [stylePropDefaults]. *)
Definition part6 : string :=
  "
} satisfies PropDefaults;

/**
 * A list of values that if passed to any styleProp on our Box component should
 * warn the user, and bail early from the css property injection procedure. We
 * do this as there is no good way for us to explicitly disallow this string
 * literal in our types holistically for every style property.
 */
export const disallowedCSSPropertyValues = ".

(** After part 6: [JSON.stringify(disallowedCSSPropertyValues, null, 2)]. *)
Definition part7 : string :=
  " satisfies Globals[];

/**
 * Style props which only accept tokens need to be assigned to a token group.
 */
export const stylePropTokenGroupMap = {
  // Longhand CSS Style Props
  ".

(** After part 7: the longhand entries of [stylePropTokenGroupMap]. *)
Definition part8 : string :=
  ",

  // Aliases
  ".

(** After part 8: the alias entries of [stylePropTokenGroupMap]. *)
Definition part9 : string :=
  ",
} as const;

export const cssCustomPropertyNamespace = ".

(** After part 9: [JSON.stringify(cssCustomPropertyNamespace)]. *)
Definition part10 : string :=
  ";

export const modifiers = ".

(** After part 10: [JSON.stringify(Object.values(modifiersData))]. *)
Definition part11 : string :=
  " as const;

export const baseStylePropsModifierKey = '' as const;
type BaseStylePropsModifierKey = typeof baseStylePropsModifierKey;

export const baseStylePropsBreakpointKey = '' as const;
type BaseStylePropsBreakpointKey = typeof baseStylePropsBreakpointKey;

export type BreakpointsAliasesWithBaseKey =
  | BaseStylePropsBreakpointKey
  | Exclude<BreakpointsAlias, (typeof breakpointsAliases)[0]>;

// The " ++ dq ++ "base" ++ dq ++ " styles always come last after other modifiers
export const allModifiers: ((typeof modifiers)[number] | BaseStylePropsModifierKey)[] =
  [...modifiers, baseStylePropsModifierKey];

export type ValueMapperFactory = (map: typeof stylePropTokenGroupMap) => (
  value: ResponsiveStyleProps[typeof prop],
  prop: keyof typeof stylePropTokenGroupMap,
  breakpoint: BreakpointsAlias,
  modifier: (typeof allModifiers)[number],
) => unknown;
export const valueMapperFactory: ValueMapperFactory= ".

(** After part 11: [BoxValueMapperFactory.toString()]. *)
Definition part12 : string :=
  ";
".

Definition parts : list string :=
  [part0; part1; part2; part3; part4; part5; part6; part7; part8; part9;
   part10; part11; part12].

End TsTemplate.

(** ** The generator *)

Section Generator.

Context `{Imports}.

(** *** Tables computed when the module is loaded *)

(** Get all breakpoints massaged into a more useful set of data. *)
Definition breakpoints : list Breakpoint :=
  map (fun '(k, breakpointValue) =>
         {| key := replace "breakpoints-" EmptyString k;
            value := toPx breakpointValue |})
      (Obj.entries metaThemeDefault_breakpoints).

Definition cssLonghandProperties : Obj.t LonghandProperty :=
  getCSSTypeLonghandProperties.

(** [aliases ?? []] *)
Definition aliasesOrEmpty (config : StyleProp JSValue) : list string :=
  match aliases config with
  | Some names => names
  | None => []
  end.

(** Extract a unique set of just the alias names. *)
Definition allAliases : list string :=
  JsSet.values
    (JsSet.from
       (JsArray.flat (map aliasesOrEmpty (Obj.values stylePropConfig)))).

(** The body of the loop of [inverseAliases]:
    [acc[alias] = acc[alias] ?? []; acc[alias].push(prop)], for an alias
    that is an own property of [acc] or that [acc] does not inherit.  The
    loop as it runs on an accumulator that inherits from
    [Object.prototype] is [pushInverseLoaded] below; it throws on an
    inherited alias and otherwise agrees with this one. *)
Definition pushInverse (prop : string) (acc : Obj.t (list string))
           (alias : string) : Obj.t (list string) :=
  let current := match Obj.get acc alias with
                 | Some props => props
                 | None => []
                 end in
  Obj.set acc alias (current ++ [prop])%list.

Definition inverseAliases : Obj.t (list string) :=
  fold_left
    (fun acc '(prop, config) =>
       fold_left (pushInverse prop) (aliasesOrEmpty config) acc)
    (Obj.entries stylePropConfig) [].

Definition cssPropsToTokenGroup : Obj.t string :=
  fold_left
    (fun acc '(tokenGroup, props) =>
       fold_left (fun acc' prop => Obj.set acc' prop tokenGroup) props acc)
    (Obj.entries tokenizedCSSStyleProps) [].

(** *** [verifyAliases] *)

(** [cssLonghandProperties[prop].type]: a [TypeError] when [prop] is not a
    property of the table. *)
Definition typeOf (prop : string) : option (list string) :=
  match Obj.get cssLonghandProperties prop with
  | Some info => Some (type info)
  | None => None
  end.

(** [props.map((prop) => cssLonghandProperties[prop].type)] *)
Definition typesOf (props : list string) : option (list (list string)) :=
  traverse typeOf props.

Definition aliasCollisions : list string :=
  filter
    (fun longhandProperty =>
       negb (JsArray.includes disallowedCSSProperties longhandProperty)
       && JsArray.includes allAliases longhandProperty)
    (Obj.keys cssLonghandProperties).

(** The [forEach] over the entries of [inverseAliases] that fills
    [typeMismatches]. *)
Definition checkOverlap (found : option (list string))
           (entry : string * list string) : option (list string) :=
  let '(alias, props) := entry in
  match found with
  | None => None
  | Some mismatches =>
      match typesOf props with
      | None => None
      | Some types =>
          if Nat.eqb (List.length (getArrayIntersection types)) 0
          then Some (mismatches ++ [alias])%list
          else Some mismatches
      end
  end.

Definition typeMismatches : option (list string) :=
  fold_left checkOverlap (Obj.entries inverseAliases) (Some []).

Definition collisionMessage (collisions : list string) : string :=
  endent
    [LF ++ "          The following CSS properties collide with style prop aliases:"
        ++ LF ++ LF ++ "          ";
     LF ++ LF ++ "          Aliases which happen to have the same name as a CSS property must be added to `disallowedCSSProperties[]` to ensure correct typings."
        ++ LF ++ "        "]
    [JsArray.join ", " collisions].

Definition mismatchEntry (alias : string) : option string :=
  match Obj.get inverseAliases alias with
  | None => None
  | Some props =>
      match traverse
              (fun prop =>
                 match typeOf prop with
                 | Some types =>
                     Some (prop ++ ": " ++ JsArray.join " | " types ++ ";")
                 | None => None
                 end) props with
      | None => None
      | Some lines =>
          Some (endent
                  [LF ++ "                Alias `";
                   "` is a fallback for:" ++ LF ++ "                  ";
                   LF ++ "              "]
                  [alias; JsArray.join (LF ++ "  ") lines])
      end
  end.

Definition mismatchMessage (mismatches : list string) : option string :=
  match traverse mismatchEntry mismatches with
  | None => None
  | Some texts =>
      Some (endent
              [LF ++ "          Cannot use aliases as fallback; constituent CSS Properties do not have any overlap"
                  ++ LF ++ LF ++ "          ";
               LF ++ "        "]
              [JsArray.join (LF ++ LF) texts])
  end.

(** [arr.length] used as a condition *)
Definition nonEmpty {A} (arr : list A) : bool :=
  negb (Nat.eqb (List.length arr) 0).

Definition verifyAliases : Script unit :=
  mismatches <- try typeMismatches ;;
  if nonEmpty aliasCollisions || nonEmpty mismatches then
    (if nonEmpty aliasCollisions
     then console_error (collisionMessage aliasCollisions)
     else ret tt) ;;
    (if nonEmpty mismatches
     then (text <- try (mismatchMessage mismatches) ;; console_error text)
     else ret tt) ;;
    process_exit (-1)
  else ret tt.

(** *** [writeTSProperties] *)

Definition generateTSPickList (keys : list string) (indent : nat) : string :=
  JsArray.join (LF ++ spaces indent ++ "| ") keys.

Definition joinEnglish (arr : list string) : string :=
  match arr with
  | [only] => only
  | _ =>
      let joined := JsArray.join ", " (JsArray.slice_init arr) in
      if Nat.ltb (List.length arr) 2 then joined
      else joined ++ " and " ++ List.last arr "undefined"
  end.

(** The three ways [createMinimumCommonUnionForAlias] returns. *)
Inductive AliasType : Type :=
| SameAsFirst (first : string)
| Never
| ExcludeFromFirst (first : string) (typesToRemoveFromFirst : list string).

Definition printAliasType (t : AliasType) : string :=
  match t with
  | SameAsFirst first => "LonghandStyleProps['" ++ first ++ "']"
  | Never => "never"
  | ExcludeFromFirst first typesToRemoveFromFirst =>
      endent
        [LF ++ "      Exclude<" ++ LF ++ "          LonghandStyleProps['";
         "']," ++ LF ++ "          ";
         LF ++ "        >" ++ LF ++ "    "]
        [first; generateTSPickList typesToRemoveFromFirst 0]
  end.

(** [styleProps[0]] inside a template *)
Definition firstOf (styleProps : list string) : string :=
  interpolate (List.hd_error styleProps).

Definition minimumCommonUnion (styleProps : list string)
  : option AliasType :=
  match typesOf styleProps with
  | None => None
  | Some types =>
      if arraysAreEqualSets types then
        (* If all the types are the same, just reference the first from
           the list *)
        Some (SameAsFirst (firstOf styleProps))
      else
        (* Otherwise, reduce it down to a minimum set by excluding all the
           properties not shared *)
        let typeIntersection := getArrayIntersection types in
        if Nat.eqb (List.length typeIntersection) 0 then Some Never
        else
          let symetricalDifference :=
            getArrayDifference [JsArray.flat types; typeIntersection] in
          let typesToRemoveFromFirst :=
            getArrayIntersection [List.hd [] types; symetricalDifference] in
          Some (ExcludeFromFirst (firstOf styleProps) typesToRemoveFromFirst)
  end.

Definition createMinimumCommonUnionForAlias (styleProps : list string)
  : option string :=
  option_map printAliasType (minimumCommonUnion styleProps).

(** [stylePropConfig[prop].aliases.map(...)]: a [TypeError] when the prop
    is not configured or has no aliases. *)
Definition fallbackChain (prop : string) : option string :=
  match Obj.get stylePropConfig prop with
  | Some {| aliases := Some names |} =>
      Some (prop ++ " = props." ++ prop ++ " ?? "
                 ++ JsArray.join " ?? "
                      (map (fun fallbackProp => "props." ++ fallbackProp)
                           names)
                 ++ ";")
  | _ => None
  end.

(** One member of the interface [StylePropAliases]. *)
Definition aliasMember (entry : string * list string) : option string :=
  let '(alias, styleProps) := entry in
  match traverse fallbackChain styleProps with
  | None => None
  | Some chains =>
      match createMinimumCommonUnionForAlias styleProps with
      | None => None
      | Some aliasType =>
          Some (LF ++ "  /**" ++ LF ++ "   * Alias for setting "
                ++ joinEnglish (map (fun prop => "`" ++ prop ++ "`") styleProps)
                ++ ":" ++ LF ++ "   *" ++ LF ++ "   * ```" ++ LF ++ "   * "
                ++ JsArray.join (LF ++ "   * ") chains
                ++ LF ++ "   * ```" ++ LF ++ "   *" ++ LF ++ "   * "
                ++ JsArray.join (LF ++ "   * ")
                     (map (fun prop =>
                             "@see {@link LonghandStyleProps." ++ prop ++ "}")
                          styleProps)
                ++ LF ++ "   */" ++ LF ++ "  "
                ++ alias ++ "?: " ++ aliasType ++ ";")
      end
  end.

Definition aliasMembers : option string :=
  option_map (JsArray.join LF)
             (traverse aliasMember (Obj.entries inverseAliases)).

Definition disallowedPickList : string :=
  generateTSPickList
    (map (fun prop => "'" ++ prop ++ "'")
         (filter (Obj.hasOwn cssLonghandProperties)
                 (disallowedCSSProperties ++ allAliases)%list))
    2.

(** [aliases?.length] used as a condition *)
Definition hasAliases (config : StyleProp JSValue) : bool :=
  match aliases config with
  | Some names => nonEmpty names
  | None => false
  end.

Definition aliasFallbackEntries : string :=
  JsArray.join (LF ++ "  ")
    (map (fun '(styleProp, config) =>
            styleProp ++ ": "
              ++ JSON_stringify_array (aliasesOrEmpty config) ++ ",")
         (filter (fun '(_, config) => hasAliases config)
                 (Obj.entries stylePropConfig))).

(** [typeof getDefault !== 'undefined'] *)
Definition hasDefault (config : StyleProp JSValue) : bool :=
  match getDefault config with
  | NoDefault => false
  | _ => true
  end.

Definition printDefault (d : DefaultValue JSValue) : string :=
  match d with
  | DefaultFunction source => source
  | DefaultStatic v => JSON_stringify_value v
  | NoDefault => "undefined"
  end.

Definition defaultEntries : string :=
  JsArray.join (LF ++ "  ")
    (map (fun '(styleProp, config) =>
            styleProp ++ ": " ++ printDefault (getDefault config) ++ ",")
         (filter (fun '(_, config) => hasDefault config)
                 (Obj.entries stylePropConfig))).

(** The entries of [cssPropsToTokenGroup] for longhand CSS properties
    that are not aliases. *)
Definition longhandTokenGroups : Obj.t string :=
  filter (fun '(prop, _) =>
            Obj.hasOwn cssLonghandProperties prop
            && negb (JsArray.includes allAliases prop))
         (Obj.entries cssPropsToTokenGroup).

Definition longhandTokenGroupEntries : string :=
  JsArray.join ("," ++ LF ++ "  ")
    (map (fun '(prop, tokenGroup) =>
            prop ++ ": " ++ JSON_stringify_string tokenGroup)
         longhandTokenGroups).

Definition aliasTokenGroupEntries : string :=
  JsArray.join ("," ++ LF ++ "  ")
    (map (fun '(alias, properties) =>
            alias ++ ": "
              ++ interpolate
                   (option_map JSON_stringify_string
                      (Obj.get cssPropsToTokenGroup (firstOf properties))))
         (filter (fun '(_, properties) =>
                    Obj.hasOwn cssPropsToTokenGroup (firstOf properties))
                 (Obj.entries inverseAliases))).

(** The values of the template of the types file, in order. *)
Definition tsValues : option (list string) :=
  match aliasMembers with
  | None => None
  | Some members =>
      Some [EmptyString;
            joinEnglish (Obj.values modifiersData);
            members;
            disallowedPickList;
            aliasFallbackEntries;
            defaultEntries;
            JSON_stringify_array_indented disallowedCSSPropertyValues;
            longhandTokenGroupEntries;
            aliasTokenGroupEntries;
            JSON_stringify_string cssCustomPropertyNamespace;
            JSON_stringify_array (Obj.values modifiersData);
            BoxValueMapperFactory_toString]
  end.

(** An untagged template: the literal parts with the values between. *)
Fixpoint template (parts values : list string) : string :=
  match parts, values with
  | [], _ => EmptyString
  | part :: parts', [] => part ++ template parts' []
  | part :: parts', v :: values' => part ++ v ++ template parts' values'
  end.

Definition tsText : option string :=
  option_map (template TsTemplate.parts) tsValues.

Definition writeTSProperties (targetFile : string) : Script unit :=
  text <- try tsText ;;
  fh_write targetFile text.

(** *** [writeCSSMediaVars] *)

Section MediaVars.

(** The second parameter of [writeCSSMediaVars]: selector to modifier
    name, in the order the modifiers are applied. *)
Variable modifiers : Obj.t string.

(** Skip the 'xs' size. *)
Definition breakpointsWithoutXs : list Breakpoint :=
  JsArray.slice1 breakpoints.

Definition baseBreakpointKey : string := EmptyString.

(** [{...breakpoints[0], key: baseBreakpointKey}] followed by the other
    breakpoints. *)
Definition breakpointsWithBaseXs : list Breakpoint :=
  {| key := baseBreakpointKey;
     value := match breakpoints with
              | xs :: _ => value xs
              | [] => None
              end |}
  :: breakpointsWithoutXs.

(** [--<namespace><key>: initial;] *)
Definition initialLine (b : Breakpoint) : string :=
  "--" ++ cssCustomPropertyNamespace ++ key b ++ ": initial;".

(** [--<namespace><key><modifierName>: initial;] *)
Definition modifierInitialLine (modifierName : string) (b : Breakpoint)
  : string :=
  "--" ++ cssCustomPropertyNamespace ++ key b ++ modifierName
       ++ ": initial;".

Definition defaults : string :=
  endent
    [LF ++ "    "; LF ++ LF ++ "    "; LF ++ "  "]
    [JsArray.join LF (map initialLine breakpointsWithoutXs);
     JsArray.join (LF ++ LF)
       (map (fun '(_, modifierName) =>
               JsArray.join LF
                 (map (modifierInitialLine modifierName)
                      breakpointsWithBaseXs))
            (Obj.entries modifiers))].

(** One media query: at the breakpoint, the custom property is set to a
    single space. *)
Definition mediaQuery (b : Breakpoint) : string :=
  "@media screen and (min-width: " ++ interpolate (value b)
    ++ ") { .Box { --" ++ cssCustomPropertyNamespace ++ key b
    ++ ": ; } }".

Definition mediaQueries : string :=
  JsArray.join LF (map mediaQuery breakpointsWithoutXs).

(** [typeof getDefault !== 'undefined' && typeof getDefault !== 'function'] *)
Definition staticDefault (config : StyleProp JSValue) : option JSValue :=
  match getDefault config with
  | DefaultStatic v => Some v
  | _ => None
  end.

Definition defaultCSSProperties : string :=
  endent
    [EmptyString; EmptyString]
    [JsArray.join EmptyString
       (flat_map
          (fun '(styleProp, config) =>
             match staticDefault config with
             | Some v =>
                 [decamelize styleProp "-" ++ ": "
                    ++ BoxValueMapperFactory longhandTokenGroups v styleProp
                    ++ ";" ++ LF]
             | None => []
             end)
          (Obj.entries stylePropConfig))].

(** One declaration of a modifier rule. *)
Definition modifierLine (modifierName : string) (b : Breakpoint) : string :=
  "--" ++ cssCustomPropertyNamespace ++ key b ++ modifierName ++ ": "
    ++ (if String.eqb (key b) baseBreakpointKey then EmptyString
        else "var(--" ++ cssCustomPropertyNamespace ++ key b ++ ")")
    ++ ";".

(** The rule of one modifier. *)
Definition selectorRule (entry : string * string) : string :=
  let '(selector, modifierName) := entry in
  endent
    [LF ++ "        .Box"; " {" ++ LF ++ "          "; LF ++ "        }"]
    [selector;
     JsArray.join LF (map (modifierLine modifierName) breakpointsWithBaseXs)].

Definition selectorsEnabled : string :=
  JsArray.join (LF ++ LF) (map selectorRule (Obj.entries modifiers)).

Definition cssParts : list string :=
  [LF ++ "    /* THIS FILE IS AUTO GENERATED, DO NOT TOUCH */" ++ LF
      ++ "    .Box {" ++ LF ++ "      ";
   LF ++ "      ";
   LF ++ "    }" ++ LF ++ LF ++ "    ";
   LF ++ LF ++ "    ";
   LF ++ "  "].

Definition cssText : string :=
  endent cssParts
         [defaultCSSProperties; defaults; mediaQueries; selectorsEnabled].

Definition writeCSSMediaVars (file : string) : Script unit :=
  fh_write file cssText.

End MediaVars.

(** *** The script *)

Definition main : Script unit :=
  verifyAliases ;;
  sassFile <- fs_open styleFile ;;
  writeCSSMediaVars modifiersData sassFile ;;
  fh_close sassFile ;;
  tsFile <- fs_open typesFile ;;
  writeTSProperties tsFile ;;
  fh_close tsFile.

End Generator.

(** ** The Toast component: when it dismisses itself *)

Module Toast.

Local Open Scope float_scope.

Definition DEFAULT_TOAST_DURATION : float := 5000.

Definition DEFAULT_TOAST_DURATION_WITH_ACTION : float := 10000.

(** The [action] prop: its label; the callback plays no part here. *)
Record Action : Type := { content : string }.

(** The props the effect depends on: [duration?: number] and [action?]. *)
Record ToastProps : Type := {
  duration : option float;
  action : option Action
}.

(** A number used as a condition: [undefined], zeros and NaN are falsy. *)
Definition truthy (n : option float) : bool :=
  match n with
  | None => false
  | Some d => negb (PrimFloat.eqb d 0 || PrimFloat.is_nan d)
  end.

(** An object used as a condition. *)
Definition provided {A} (o : option A) : bool :=
  match o with
  | Some _ => true
  | None => false
  end.

Definition warning : string :=
  "Toast with action should persist for at least 10,000 milliseconds to give the merchant enough time to act on it.".

(** [duration || DEFAULT_TOAST_DURATION] *)
Definition orDefault (n : option float) : float :=
  match n with
  | Some d => if truthy n then d else DEFAULT_TOAST_DURATION
  | None => DEFAULT_TOAST_DURATION
  end.

(** [duration < DEFAULT_TOAST_DURATION_WITH_ACTION] *)
Definition belowActionDefault (n : option float) : bool :=
  match n with
  | Some d => PrimFloat.ltb d DEFAULT_TOAST_DURATION_WITH_ACTION
  | None => false
  end.

(** The body of the effect up to [setTimeout]: what it logs to the
    console and the delay it passes to [setTimeout]. *)
Definition effect (props : ToastProps) : list string * float :=
  let timeoutDuration := orDefault (duration props) in
  if provided (action props) && negb (truthy (duration props)) then
    ([], DEFAULT_TOAST_DURATION_WITH_ACTION)
  else if provided (action props) && truthy (duration props)
          && belowActionDefault (duration props) then
    ([warning], timeoutDuration)
  else ([], timeoutDuration).

Definition timeoutDuration (props : ToastProps) : float :=
  snd (effect props).

Definition logged (props : ToastProps) : list string :=
  fst (effect props).

End Toast.

(** * Properties *)

(** ** Sets *)

Module JsSetFacts.

Lemma values_app d1 d2 : values (d1 ++ d2)%list = (values d1 ++ values d2)%list.
Proof.
  induction d1 as [|[e|] d1 IH]; simpl; [reflexivity | now rewrite IH | exact IH].
Qed.

Lemma has_In elem d : has elem d = true <-> In elem (values d).
Proof.
  unfold has. induction d as [|[e|] d IH]; simpl.
  - split; [discriminate | tauto].
  - destruct (String.eqb_spec e elem) as [->|Hne]; simpl.
    + split; auto.
    + rewrite IH. split; [auto | intros [Heq|Hin]; [contradiction | assumption]].
  - exact IH.
Qed.

Lemma has_not_In elem d : has elem d = false <-> ~ In elem (values d).
Proof.
  rewrite <- has_In. destruct (has elem d); split; congruence.
Qed.

Lemma values_add elem d :
  values (add elem d) =
  if has elem d then values d else (values d ++ [elem])%list.
Proof.
  unfold add. destruct (has elem d); [reflexivity|].
  now rewrite values_app.
Qed.

Lemma NoDup_snoc (l : list string) x :
  NoDup l -> ~ In x l -> NoDup (l ++ [x])%list.
Proof.
  intros Hl Hx. induction Hl as [|y l Hy Hl IH]; simpl.
  - constructor; [intros [] | constructor].
  - constructor.
    + rewrite in_app_iff. simpl. intros [Hin|[Heq|[]]]; [contradiction|].
      subst. apply Hx. now left.
    + apply IH. intros Hin. apply Hx. now right.
Qed.

Lemma add_NoDup elem d : NoDup (values d) -> NoDup (values (add elem d)).
Proof.
  intros Hd. rewrite values_add. destruct (has elem d) eqn:Hh; [assumption|].
  apply NoDup_snoc; [assumption | now apply has_not_In].
Qed.

Lemma add_In elem x d :
  In x (values (add elem d)) <-> x = elem \/ In x (values d).
Proof.
  rewrite values_add. destruct (has elem d) eqn:Hh.
  - apply has_In in Hh. split; [auto | intros [->|Hin]; assumption].
  - rewrite in_app_iff. simpl. split.
    + intros [Hin|[Heq|[]]]; auto.
    + intros [->|Hin]; auto.
Qed.

Lemma fold_add_NoDup elems d :
  NoDup (values d) ->
  NoDup (values (fold_left (fun s e => add e s) elems d)).
Proof.
  revert d. induction elems as [|e elems IH]; intros d Hd; simpl.
  - assumption.
  - apply IH. now apply add_NoDup.
Qed.

Lemma fold_add_In elems d x :
  In x (values (fold_left (fun s e => add e s) elems d)) <->
  In x elems \/ In x (values d).
Proof.
  revert d. induction elems as [|e elems IH]; intros d; simpl.
  - tauto.
  - rewrite IH, add_In. intuition.
Qed.

(** [new Set(elems)] holds the elements of [elems], each once. *)
Lemma from_NoDup elems : NoDup (values (from elems)).
Proof. apply fold_add_NoDup. constructor. Qed.

Lemma from_In elems x : In x (values (from elems)) <-> In x elems.
Proof. unfold from. rewrite fold_add_In. simpl. tauto. Qed.

(** An element that is in the set once is deleted at its own slot. *)
Lemma delete_at pre elem post :
  ~ In elem (values pre) ->
  delete elem (pre ++ Some elem :: post)%list = (pre ++ None :: post)%list.
Proof.
  induction pre as [|[e|] pre IH]; simpl; intros Hnot.
  - now rewrite String.eqb_refl.
  - destruct (String.eqb_spec e elem) as [->|Hne].
    + exfalso. apply Hnot. now left.
    + rewrite IH; [reflexivity | intros Hin; apply Hnot; now right].
  - now rewrite IH.
Qed.

Lemma delete_absent elem d : ~ In elem (values d) -> delete elem d = d.
Proof.
  induction d as [|[e|] d IH]; simpl; intros Hnot.
  - reflexivity.
  - destruct (String.eqb_spec e elem) as [->|Hne].
    + exfalso. apply Hnot. now left.
    + rewrite IH; [reflexivity | intros Hin; apply Hnot; now right].
  - now rewrite IH.
Qed.

Lemma values_delete elem d :
  NoDup (values d) ->
  values (delete elem d) = filter (fun x => negb (String.eqb x elem)) (values d).
Proof.
  induction d as [|[e|] d IH]; simpl; intros Hd.
  - reflexivity.
  - inversion Hd as [|? ? Hnot Hd']; subst.
    destruct (String.eqb_spec e elem) as [->|Hne]; simpl.
    + symmetry. apply forallb_filter_id.
      apply forallb_forall. intros x Hx.
      destruct (String.eqb_spec x elem) as [->|]; [contradiction | reflexivity].
    + now rewrite IH.
  - now apply IH.
Qed.

End JsSetFacts.

(** ** [getArrayIntersection] *)

Module IntersectionFacts.

Import JsSetFacts.

(** One turn of the loop, read off the iterator: it stops when the index
    has reached the end of the entries, skips a hole, and otherwise runs the
    body on the entry. *)
Lemma intersection_scan_unfold arr d i :
  intersection_scan arr d i =
  match nth_error d i with
  | None => d
  | Some None => intersection_scan arr d (S i)
  | Some (Some elem) =>
      if JsArray.includes arr elem
      then intersection_scan arr d (S i)
      else intersection_scan arr (delete elem d) (S i)
  end.
Proof.
  rewrite intersection_scan_equation_1.
  unfold intersection_scan_unfold_clause_1.
  destruct (lt_dec i (List.length d)) as [Hlt|Hge].
  - unfold intersection_scan_unfold_clause_1_clause_2.
    destruct (nth_error d i) as [slot|] eqn:Hnth.
    + rewrite (nth_error_nth _ _ None Hnth). destruct slot; reflexivity.
    + apply nth_error_None in Hnth. lia.
  - destruct (nth_error d i) eqn:Hnth; [|reflexivity].
    exfalso. apply Hge. apply nth_error_Some. congruence.
Qed.

(** What the body leaves of a slot. *)
Definition keep_slot (arr : list string) (slot : option string)
  : option string :=
  match slot with
  | Some elem => if JsArray.includes arr elem then Some elem else None
  | None => None
  end.

Section Splitting.

Context {A : Type}.

Lemma firstn_prefix (pre l : list A) :
  firstn (List.length pre) (pre ++ l)%list = pre.
Proof. induction pre as [|x pre IH]; simpl; [now destruct l | now rewrite IH]. Qed.

Lemma skipn_prefix (pre l : list A) :
  skipn (List.length pre) (pre ++ l)%list = l.
Proof. induction pre as [|x pre IH]; simpl; [reflexivity | exact IH]. Qed.

Lemma firstn_prefix_S (pre : list A) x post :
  firstn (S (List.length pre)) (pre ++ x :: post)%list = (pre ++ [x])%list.
Proof.
  induction pre as [|y pre IH]; [now destruct post|].
  change (y :: firstn (S (List.length pre)) (pre ++ x :: post)
          = y :: (pre ++ [x]))%list.
  now rewrite IH.
Qed.

Lemma skipn_prefix_S (pre : list A) x post :
  skipn (S (List.length pre)) (pre ++ x :: post)%list = post.
Proof. induction pre as [|y pre IH]; simpl; [reflexivity | exact IH]. Qed.

End Splitting.

(** The loop started at index [i] leaves the slots before [i] alone and
    applies the body to every later slot, although it deletes from the
    set it walks. *)
Lemma intersection_scan_slots arr n :
  forall d i,
    List.length d - i = n ->
    NoDup (values d) ->
    intersection_scan arr d i =
    (firstn i d ++ map (keep_slot arr) (skipn i d))%list.
Proof.
  induction n as [n IH] using lt_wf_ind. intros d i Hn Hd.
  rewrite intersection_scan_unfold.
  destruct (nth_error d i) as [slot|] eqn:Hnth.
  - apply nth_error_split in Hnth.
    destruct Hnth as (pre & post & -> & <-).
    rewrite length_app in Hn. simpl in Hn.
    rewrite firstn_prefix, skipn_prefix.
    destruct slot as [elem|]; cbn [map keep_slot].
    + destruct (JsArray.includes arr elem) eqn:Hinc.
      * rewrite (IH (List.length post)); [ | lia | | assumption ].
        -- rewrite firstn_prefix_S, skipn_prefix_S. now rewrite <- app_assoc.
        -- rewrite length_app. simpl. lia.
      * assert (Hnot : ~ In elem (values pre)).
        { rewrite values_app in Hd. simpl in Hd.
          apply NoDup_remove_2 in Hd. intros Hin. apply Hd.
          apply in_or_app. now left. }
        rewrite (delete_at pre elem post Hnot).
        rewrite (IH (List.length post)); [ | lia | | ].
        -- rewrite firstn_prefix_S, skipn_prefix_S. now rewrite <- app_assoc.
        -- rewrite length_app. simpl. lia.
        -- rewrite values_app in *. simpl in *.
           now apply NoDup_remove_1 in Hd.
    + rewrite (IH (List.length post)); [ | lia | | assumption ].
      * rewrite firstn_prefix_S, skipn_prefix_S. now rewrite <- app_assoc.
      * rewrite length_app. simpl. lia.
  - apply nth_error_None in Hnth.
    rewrite firstn_all2, skipn_all2 by lia. simpl. now rewrite app_nil_r.
Qed.

Lemma values_keep_slot arr d :
  values (map (keep_slot arr) d) = filter (JsArray.includes arr) (values d).
Proof.
  induction d as [|[e|] d IH]; simpl; [reflexivity | | exact IH].
  destruct (JsArray.includes arr e); simpl; now rewrite IH.
Qed.

(** A full pass of the loop keeps the elements that [arr] includes. *)
Lemma intersection_scan_filter arr d :
  NoDup (values d) ->
  values (intersection_scan arr d 0)
  = filter (JsArray.includes arr) (values d).
Proof.
  intros Hd.
  rewrite (intersection_scan_slots arr (List.length d - 0) d 0 eq_refl Hd).
  simpl. apply values_keep_slot.
Qed.

Lemma scans_values arrs :
  forall d,
    NoDup (values d) ->
    let result :=
      fold_left (fun inter arr => intersection_scan arr inter 0) arrs d in
    NoDup (values result) /\
    forall elem,
      In elem (values result) <->
      In elem (values d) /\ forall arr, In arr arrs -> In elem arr.
Proof.
  induction arrs as [|arr arrs IH]; intros d Hd; simpl.
  - split; [assumption|]. intros elem. split; [tauto | intros [Hin _]; exact Hin].
  - assert (Hd' : NoDup (values (intersection_scan arr d 0))).
    { rewrite intersection_scan_filter by assumption. now apply NoDup_filter. }
    destruct (IH _ Hd') as [Hnd Hin]. split; [exact Hnd|].
    intros elem. rewrite Hin, intersection_scan_filter by assumption.
    rewrite filter_In, JsArray.includes_In. split.
    + intros [[Hv Ha] Hall]. split; [assumption|].
      intros arr' [<-|Hin']; auto.
    + intros [Hv Hall]. repeat split; auto.
Qed.

Lemma getArrayIntersection_NoDup arrs : NoDup (getArrayIntersection arrs).
Proof.
  unfold getArrayIntersection.
  apply (scans_values arrs). apply from_NoDup.
Qed.

Lemma getArrayIntersection_In arrs elem :
  In elem (getArrayIntersection arrs) <->
  In elem (JsArray.flat arrs) /\ forall arr, In arr arrs -> In elem arr.
Proof.
  unfold getArrayIntersection.
  destruct (scans_values arrs (from (values (from (JsArray.flat arrs))))
              (from_NoDup _)) as [_ Hin].
  rewrite Hin, !from_In. reflexivity.
Qed.

(** The test of [verifyAliases] and of [createMinimumCommonUnionForAlias]:
    the intersection is empty exactly when no element is in every array. *)
Lemma getArrayIntersection_empty arrs :
  Nat.eqb (List.length (getArrayIntersection arrs)) 0 = true <->
  ~ exists elem,
      In elem (JsArray.flat arrs) /\ forall arr, In arr arrs -> In elem arr.
Proof.
  rewrite Nat.eqb_eq, length_zero_iff_nil. split.
  - intros Hnil [elem Helem]. apply getArrayIntersection_In in Helem.
    rewrite Hnil in Helem. exact Helem.
  - intros Hnone. destruct (getArrayIntersection arrs) as [|x l] eqn:Hres;
      [reflexivity|].
    exfalso. apply Hnone. exists x. apply getArrayIntersection_In.
    rewrite Hres. now left.
Qed.

End IntersectionFacts.

(** ** Objects *)

Module ObjFacts.

Section WithValues.

Context {V : Type}.
Implicit Types (obj : Obj.t V) (key : string) (v : V).

Lemma get_set obj key v key' :
  Obj.get (Obj.set obj key v) key' =
  if String.eqb key key' then Some v else Obj.get obj key'.
Proof.
  induction obj as [|[k v'] obj IH]; simpl.
  - reflexivity.
  - destruct (String.eqb_spec k key) as [->|Hne]; simpl.
    + destruct (String.eqb key key'); reflexivity.
    + rewrite IH. destruct (String.eqb_spec k key') as [->|Hne'].
      * destruct (String.eqb_spec key key') as [->|]; [contradiction|].
        reflexivity.
      * reflexivity.
Qed.

Lemma keys_set obj key v :
  Obj.keys (Obj.set obj key v) =
  if Obj.hasOwn obj key then Obj.keys obj
  else (Obj.keys obj ++ [key])%list.
Proof.
  unfold Obj.hasOwn. induction obj as [|[k v'] obj IH]; simpl.
  - reflexivity.
  - destruct (String.eqb_spec k key) as [->|Hne]; simpl; [reflexivity|].
    rewrite IH. now destruct (Obj.get obj key).
Qed.

Lemma hasOwn_In obj key : Obj.hasOwn obj key = true <-> In key (Obj.keys obj).
Proof.
  unfold Obj.hasOwn. induction obj as [|[k v] obj IH]; simpl.
  - split; [discriminate | tauto].
  - destruct (String.eqb_spec k key) as [->|Hne].
    + split; auto.
    + rewrite IH. split; [auto | intros [Heq|Hin]; [contradiction | assumption]].
Qed.

Lemma get_In obj key v : Obj.get obj key = Some v -> In (key, v) obj.
Proof.
  induction obj as [|[k v'] obj IH]; simpl; [discriminate|].
  destruct (String.eqb_spec k key) as [->|Hne].
  - intros [= ->]. now left.
  - intros Hget. right. now apply IH.
Qed.

Lemma In_get obj key v :
  Obj.wf obj -> In (key, v) obj -> Obj.get obj key = Some v.
Proof.
  unfold Obj.wf. induction obj as [|[k v'] obj IH]; simpl; [tauto|].
  intros Hnd [Heq|Hin].
  - injection Heq as -> ->. now rewrite String.eqb_refl.
  - inversion Hnd as [|? ? Hnot Hnd']; subst.
    destruct (String.eqb_spec k key) as [->|Hne].
    + exfalso. apply Hnot. change (In (fst (key, v)) (map fst obj)).
      now apply in_map.
    + now apply IH.
Qed.

Lemma set_wf obj key v : Obj.wf obj -> Obj.wf (Obj.set obj key v).
Proof.
  unfold Obj.wf. intros Hwf. rewrite keys_set.
  destruct (Obj.hasOwn obj key) eqn:Hown; [assumption|].
  apply JsSetFacts.NoDup_snoc; [assumption|].
  rewrite <- hasOwn_In. congruence.
Qed.

Lemma In_hasOwn obj key v : In (key, v) obj -> Obj.hasOwn obj key = true.
Proof.
  intros Hin. apply hasOwn_In. change (In (fst (key, v)) (map fst obj)).
  now apply in_map.
Qed.

Lemma hasOwn_get obj key :
  Obj.hasOwn obj key = true -> exists v, Obj.get obj key = Some v.
Proof.
  unfold Obj.hasOwn. destruct (Obj.get obj key) as [v|]; [|discriminate].
  intros _. now exists v.
Qed.

End WithValues.

End ObjFacts.

(** ** The alias tables *)

Section AliasTables.

Context `{Imports}.

Import ObjFacts.

(** The props pushed for [alias] while the loop of [inverseAliases] goes
    over [entries]: each prop, in order, once for every time its alias
    list names [alias]. *)
Definition pushedFor (alias : string)
           (entries : list (string * StyleProp JSValue)) : list string :=
  flat_map
    (fun '(prop, config) =>
       flat_map (fun name => if String.eqb name alias then [prop] else [])
                (aliasesOrEmpty config))
    entries.

(** [acc[alias] ?? []] *)
Definition propsOf (acc : Obj.t (list string)) (alias : string)
  : list string :=
  match Obj.get acc alias with
  | Some props => props
  | None => []
  end.

Lemma pushInverse_get prop acc name alias :
  Obj.get (pushInverse prop acc name) alias =
  if String.eqb name alias then Some (propsOf acc name ++ [prop])%list
  else Obj.get acc alias.
Proof. unfold pushInverse. now rewrite get_set. Qed.

Lemma pushInverse_wf prop acc name :
  Obj.wf acc -> Obj.wf (pushInverse prop acc name).
Proof. apply set_wf. Qed.

(** Every list stored in the table is non-empty: a key is created by the
    push that follows. *)
Definition filled (acc : Obj.t (list string)) : Prop :=
  forall alias props, Obj.get acc alias = Some props -> props <> [].

Lemma pushInverse_filled prop acc name :
  filled acc -> filled (pushInverse prop acc name).
Proof.
  intros Hacc alias props. rewrite pushInverse_get.
  destruct (String.eqb name alias).
  - intros [= <-]. now destruct (propsOf acc name).
  - apply Hacc.
Qed.

Lemma push_aliases_props prop names :
  forall acc alias,
    filled acc ->
    propsOf (fold_left (pushInverse prop) names acc) alias =
    (propsOf acc alias
     ++ flat_map (fun name => if String.eqb name alias then [prop] else [])
                 names)%list.
Proof.
  induction names as [|name names IH]; intros acc alias Hacc; simpl.
  - now rewrite app_nil_r.
  - rewrite IH by now apply pushInverse_filled.
    unfold propsOf at 1. rewrite pushInverse_get.
    destruct (String.eqb_spec name alias) as [->|Hne].
    + now rewrite <- app_assoc.
    + reflexivity.
Qed.

Lemma push_aliases_filled prop names :
  forall acc, filled acc -> filled (fold_left (pushInverse prop) names acc).
Proof.
  induction names as [|name names IH]; intros acc Hacc; simpl;
    [assumption|].
  apply IH. now apply pushInverse_filled.
Qed.

Lemma push_aliases_wf prop names :
  forall acc, Obj.wf acc -> Obj.wf (fold_left (pushInverse prop) names acc).
Proof.
  induction names as [|name names IH]; intros acc Hacc; simpl;
    [assumption|].
  apply IH. now apply pushInverse_wf.
Qed.

Definition inverseStep (acc : Obj.t (list string))
           (entry : string * StyleProp JSValue) : Obj.t (list string) :=
  let '(prop, config) := entry in
  fold_left (pushInverse prop) (aliasesOrEmpty config) acc.

Lemma inverseAliases_fold :
  inverseAliases = fold_left inverseStep (Obj.entries stylePropConfig) [].
Proof.
  unfold inverseAliases. f_equal.
Qed.

Lemma inverse_fold entries :
  forall acc,
    filled acc -> Obj.wf acc ->
    let result := fold_left inverseStep entries acc in
    filled result /\ Obj.wf result /\
    forall alias,
      propsOf result alias
      = (propsOf acc alias ++ pushedFor alias entries)%list.
Proof.
  induction entries as [|[prop config] entries IH]; intros acc Hf Hwf; simpl.
  - repeat split; try assumption. intros alias. now rewrite app_nil_r.
  - destruct (IH (fold_left (pushInverse prop) (aliasesOrEmpty config) acc))
      as (Hf' & Hwf' & Hprops).
    + now apply push_aliases_filled.
    + now apply push_aliases_wf.
    + repeat split; try assumption.
      intros alias. rewrite Hprops, push_aliases_props by assumption.
      now rewrite <- app_assoc.
Qed.

Lemma filled_nil : filled [].
Proof. intros alias props. discriminate. Qed.

Lemma wf_nil : Obj.wf (@nil (string * list string)).
Proof. constructor. Qed.

Lemma inverseAliases_filled : filled inverseAliases.
Proof. rewrite inverseAliases_fold. apply inverse_fold; [apply filled_nil | apply wf_nil]. Qed.

Lemma inverseAliases_wf : Obj.wf inverseAliases.
Proof. rewrite inverseAliases_fold. apply inverse_fold; [apply filled_nil | apply wf_nil]. Qed.

Lemma inverseAliases_props alias :
  propsOf inverseAliases alias
  = pushedFor alias (Obj.entries stylePropConfig).
Proof.
  rewrite inverseAliases_fold.
  destruct (inverse_fold (Obj.entries stylePropConfig) [] filled_nil wf_nil)
    as (_ & _ & Hprops).
  now rewrite Hprops.
Qed.

(** [inverseAliases[alias]] is the list of pushed props, and is defined
    exactly when that list is not empty. *)
Lemma inverseAliases_get alias props :
  Obj.get inverseAliases alias = Some props <->
  props = pushedFor alias (Obj.entries stylePropConfig) /\ props <> [].
Proof.
  pose proof (inverseAliases_props alias) as Hprops.
  unfold propsOf in Hprops. split.
  - intros Hget. rewrite Hget in Hprops. split; [assumption|].
    now apply (inverseAliases_filled alias).
  - intros [-> Hne].
    destruct (Obj.get inverseAliases alias) as [props|]; congruence.
Qed.

Lemma pushedFor_In alias entries prop :
  In prop (pushedFor alias entries) <->
  exists config, In (prop, config) entries /\ In alias (aliasesOrEmpty config).
Proof.
  unfold pushedFor. rewrite in_flat_map. split.
  - intros [[p config] [Hentry Hin]]. apply in_flat_map in Hin.
    destruct Hin as [name [Hname Hp]].
    destruct (String.eqb_spec name alias) as [->|]; [|contradiction].
    destruct Hp as [<-|[]]. now exists config.
  - intros [config [Hentry Hin]]. exists (prop, config). split; [assumption|].
    apply in_flat_map. exists alias. split; [assumption|].
    rewrite String.eqb_refl. now left.
Qed.

End AliasTables.

(** ** [verifyAliases] *)

Section Verification.

Context `{Imports}.

Import ObjFacts IntersectionFacts.

Lemma traverse_Some {A B} (f : A -> option B) xs :
  (forall x, In x xs -> f x <> None) -> traverse f xs <> None.
Proof.
  induction xs as [|x xs IH]; simpl; intros Hall; [discriminate|].
  destruct (f x) eqn:Hfx; [|exfalso; apply (Hall x); [now left | exact Hfx]].
  assert (Hrest : traverse f xs <> None).
  { apply IH. intros y Hy. apply Hall. now right. }
  destruct (traverse f xs); [discriminate | contradiction].
Qed.

Lemma traverse_None {A B} (f : A -> option B) xs x :
  In x xs -> f x = None -> traverse f xs = None.
Proof.
  induction xs as [|y xs IH]; simpl; [tauto|].
  intros [->|Hin] Hfx.
  - now rewrite Hfx.
  - destruct (f y); [|reflexivity]. now rewrite IH.
Qed.

Lemma traverse_map {A B} (f : A -> option B) (g : A -> B) xs :
  (forall x, In x xs -> f x = Some (g x)) -> traverse f xs = Some (map g xs).
Proof.
  induction xs as [|x xs IH]; simpl; intros Hall; [reflexivity|].
  rewrite (Hall x) by now left.
  rewrite IH; [reflexivity|]. intros y Hy. apply Hall. now right.
Qed.


(** Every prop of the list is a property of [cssLonghandProperties]. *)
Definition known (props : list string) : Prop :=
  forall prop, In prop props -> Obj.hasOwn cssLonghandProperties prop = true.

Lemma typeOf_known prop :
  typeOf prop <> None <-> Obj.hasOwn cssLonghandProperties prop = true.
Proof.
  unfold typeOf, Obj.hasOwn.
  destruct (Obj.get cssLonghandProperties prop); split;
    congruence || discriminate.
Qed.

Lemma typesOf_known props : typesOf props <> None <-> known props.
Proof.
  unfold typesOf, known. split.
  - intros Hsome prop Hin. apply typeOf_known. intros Hnone.
    apply Hsome. now apply (traverse_None _ _ prop).
  - intros Hknown. apply traverse_Some. intros prop Hin.
    apply typeOf_known. now apply Hknown.
Qed.

(** The aliases that [checkOverlap] records over a list of entries. *)
Definition mismatchesIn (entries : list (string * list string))
  : list string :=
  flat_map
    (fun '(alias, props) =>
       match typesOf props with
       | Some types =>
           if Nat.eqb (List.length (getArrayIntersection types)) 0
           then [alias] else []
       | None => []
       end)
    entries.

Lemma checkOverlap_None entries : fold_left checkOverlap entries None = None.
Proof.
  induction entries as [|[alias props] entries IH]; simpl; [reflexivity|].
  exact IH.
Qed.

Lemma checkOverlap_fold entries :
  forall found,
    fold_left checkOverlap entries (Some found) =
    if forallb (fun '(_, props) =>
                  match typesOf props with Some _ => true | None => false end)
               entries
    then Some (found ++ mismatchesIn entries)%list
    else None.
Proof.
  induction entries as [|[alias props] entries IH]; intros found; simpl.
  - now rewrite app_nil_r.
  - destruct (typesOf props) as [types|]; simpl.
    + destruct (Nat.eqb (List.length (getArrayIntersection types)) 0);
        rewrite IH.
      * destruct (forallb _ entries); [|reflexivity].
        now rewrite <- app_assoc.
      * reflexivity.
    + apply checkOverlap_None.
Qed.

Lemma typeMismatches_Some mismatches :
  typeMismatches = Some mismatches <->
  (forall alias props,
      In (alias, props) (Obj.entries inverseAliases) -> known props)
  /\ mismatches = mismatchesIn (Obj.entries inverseAliases).
Proof.
  unfold typeMismatches. rewrite checkOverlap_fold.
  destruct (forallb _ (Obj.entries inverseAliases)) eqn:Hall.
  - rewrite forallb_forall in Hall. simpl. split.
    + intros [= <-]. split; [|reflexivity].
      intros alias props Hin. apply typesOf_known.
      specialize (Hall _ Hin). simpl in Hall.
      destruct (typesOf props); congruence.
    + now intros [_ ->].
  - split; [discriminate|]. intros [Hknown _]. exfalso.
    assert (Htrue : forallb
              (fun '(_, props) =>
                 match typesOf props with Some _ => true | None => false end)
              (Obj.entries inverseAliases) = true); [|congruence].
    apply forallb_forall. intros [alias props] Hin.
    apply Hknown, typesOf_known in Hin. now destruct (typesOf props).
Qed.

Lemma mismatchesIn_In entries alias :
  In alias (mismatchesIn entries) <->
  exists props types,
    In (alias, props) entries /\ typesOf props = Some types /\
    Nat.eqb (List.length (getArrayIntersection types)) 0 = true.
Proof.
  unfold mismatchesIn. rewrite in_flat_map. split.
  - intros [[a props] [Hin Ha]].
    destruct (typesOf props) as [types|] eqn:Htypes; [|contradiction].
    destruct (Nat.eqb _ 0) eqn:Hlen; [|contradiction].
    destruct Ha as [<-|[]]. now exists props, types.
  - intros (props & types & Hin & Htypes & Hlen).
    exists (alias, props). split; [assumption|].
    rewrite Htypes, Hlen. now left.
Qed.

(** Once every entry is known, the message about the mismatches can be
    written. *)
Lemma mismatchEntry_Some alias props :
  In (alias, props) (Obj.entries inverseAliases) ->
  known props ->
  mismatchEntry alias <> None.
Proof.
  intros Hin Hknown. unfold mismatchEntry.
  rewrite (In_get _ _ _ inverseAliases_wf Hin).
  match goal with
  | |- context [traverse ?f props] =>
      assert (Hsome : traverse f props <> None)
  end.
  { apply traverse_Some. intros prop Hprop.
    apply Hknown, typeOf_known in Hprop.
    destruct (typeOf prop); congruence. }
  destruct (traverse _ props); congruence.
Qed.

Lemma mismatchMessage_Some mismatches :
  typeMismatches = Some mismatches -> mismatchMessage mismatches <> None.
Proof.
  intros Hm. apply typeMismatches_Some in Hm. destruct Hm as [Hknown ->].
  unfold mismatchMessage.
  assert (Hsome : traverse mismatchEntry
                    (mismatchesIn (Obj.entries inverseAliases)) <> None).
  { apply traverse_Some. intros alias Hin.
    apply mismatchesIn_In in Hin. destruct Hin as (props & _ & Hin & _).
    apply (mismatchEntry_Some alias props Hin). now apply (Hknown alias). }
  destruct (traverse mismatchEntry _); congruence.
Qed.

(** The three ways [verifyAliases] ends. *)

Lemma verifyAliases_throws w :
  typeMismatches = None -> verifyAliases w = (UncaughtTypeError, w).
Proof.
  intros Hnone. unfold verifyAliases, bind, try. now rewrite Hnone.
Qed.

Lemma verifyAliases_passes w mismatches :
  typeMismatches = Some mismatches ->
  nonEmpty aliasCollisions || nonEmpty mismatches = false ->
  verifyAliases w = (Normal tt, w).
Proof.
  intros Hm Hno. unfold verifyAliases, bind, try. now rewrite Hm, Hno.
Qed.

Lemma verifyAliases_exits w mismatches :
  typeMismatches = Some mismatches ->
  nonEmpty aliasCollisions || nonEmpty mismatches = true ->
  exists printed,
    printed <> [] /\
    verifyAliases w =
    (ProcessExit (-1),
     {| files := files w;
        stderr := (stderr w ++ printed)%list;
        fsLog := fsLog w |}).
Proof.
  intros Hm Hsome.
  pose proof (mismatchMessage_Some _ Hm) as Hmsg.
  destruct (mismatchMessage mismatches) as [text|] eqn:Htext; [|congruence].
  unfold verifyAliases, bind, try, ret, console_error, process_exit.
  rewrite Hm, Hsome.
  destruct (nonEmpty aliasCollisions) eqn:Hc;
    destruct (nonEmpty mismatches) eqn:Hn; try discriminate; simpl.
  - rewrite Htext. simpl.
    exists [collisionMessage aliasCollisions; text].
    split; [discriminate|]. now rewrite <- app_assoc.
  - exists [collisionMessage aliasCollisions]. split; [discriminate|].
    reflexivity.
  - rewrite Htext. simpl. exists [text]. split; [discriminate|]. reflexivity.
Qed.

End Verification.

(** ** Emission *)

Section Emission.

Context `{Imports}.

Import ObjFacts IntersectionFacts.

Lemma minimumCommonUnion_known props :
  known props -> minimumCommonUnion props <> None.
Proof.
  intros Hknown. apply typesOf_known in Hknown.
  unfold minimumCommonUnion.
  destruct (typesOf props) as [types|]; [|congruence].
  destruct (arraysAreEqualSets types); [discriminate|].
  destruct (Nat.eqb _ 0); discriminate.
Qed.

Lemma aliasesOrEmpty_Some config alias :
  In alias (aliasesOrEmpty config) -> exists names, aliases config = Some names.
Proof.
  unfold aliasesOrEmpty. destruct (aliases config) as [names|].
  - intros _. now exists names.
  - intros [].
Qed.

(** Every prop listed under an alias is configured with aliases. *)
Lemma inverse_prop_configured alias props prop :
  Obj.wf stylePropConfig ->
  In (alias, props) (Obj.entries inverseAliases) ->
  In prop props ->
  exists config,
    Obj.get stylePropConfig prop = Some config /\
    In alias (aliasesOrEmpty config).
Proof.
  intros Hwf Hentry Hprop.
  apply (In_get _ _ _ inverseAliases_wf) in Hentry.
  apply inverseAliases_get in Hentry. destruct Hentry as [-> _].
  apply pushedFor_In in Hprop. destruct Hprop as [config [Hin Halias]].
  exists config. split; [|assumption]. now apply In_get.
Qed.

Lemma fallbackChain_Some alias props prop :
  Obj.wf stylePropConfig ->
  In (alias, props) (Obj.entries inverseAliases) ->
  In prop props ->
  fallbackChain prop <> None.
Proof.
  intros Hwf Hentry Hprop.
  destruct (inverse_prop_configured _ _ _ Hwf Hentry Hprop)
    as [config [Hget Halias]].
  apply aliasesOrEmpty_Some in Halias. destruct Halias as [names Hnames].
  unfold fallbackChain. rewrite Hget. destruct config as [a d].
  simpl in Hnames. subst a. discriminate.
Qed.

Lemma aliasMember_Some alias props :
  Obj.wf stylePropConfig ->
  In (alias, props) (Obj.entries inverseAliases) ->
  known props ->
  aliasMember (alias, props) <> None.
Proof.
  intros Hwf Hentry Hknown. unfold aliasMember.
  assert (Hchains : traverse fallbackChain props <> None).
  { apply traverse_Some. intros prop Hprop.
    now apply (fallbackChain_Some alias props). }
  destruct (traverse fallbackChain props); [|congruence].
  pose proof (minimumCommonUnion_known _ Hknown) as Hunion.
  unfold createMinimumCommonUnionForAlias.
  destruct (minimumCommonUnion props); [discriminate | congruence].
Qed.

(** When every aliased prop is a longhand property the text of the types
    file can be built. *)
Lemma tsText_Some :
  Obj.wf stylePropConfig ->
  (forall alias props,
      In (alias, props) (Obj.entries inverseAliases) -> known props) ->
  tsText <> None.
Proof.
  intros Hwf Hknown. unfold tsText, tsValues, aliasMembers.
  assert (Hmembers : traverse aliasMember (Obj.entries inverseAliases) <> None).
  { apply traverse_Some. intros [alias props] Hin.
    apply aliasMember_Some; [assumption | assumption |].
    now apply (Hknown alias). }
  destruct (traverse aliasMember _); [discriminate | congruence].
Qed.

(** What is left of the script once [verifyAliases] has returned. *)
Definition emit : Script unit :=
  sassFile <- fs_open styleFile ;;
  writeCSSMediaVars modifiersData sassFile ;;
  fh_close sassFile ;;
  tsFile <- fs_open typesFile ;;
  writeTSProperties tsFile ;;
  fh_close tsFile.

Lemma main_emit w :
  main w =
  match verifyAliases w with
  | (Normal _, w') => emit w'
  | (ProcessExit code, w') => (ProcessExit code, w')
  | (UncaughtTypeError, w') => (UncaughtTypeError, w')
  end.
Proof. reflexivity. Qed.

(** The world after both files were written. *)
Definition written (w : World) (css ts : string) : World :=
  {| files := fun p =>
       if String.eqb p typesFile then Some ts
       else if String.eqb p styleFile then Some css
       else files w p;
     stderr := stderr w;
     fsLog := (fsLog w ++
               [Opened styleFile; Written styleFile css; Closed styleFile;
                Opened typesFile; Written typesFile ts; Closed typesFile])%list
  |}.

Lemma emit_run w ts :
  tsText = Some ts ->
  exists w',
    emit w = (Normal tt, w') /\
    (forall p, files w' p = files (written w (cssText modifiersData) ts) p) /\
    stderr w' = stderr w /\
    fsLog w' = fsLog (written w (cssText modifiersData) ts).
Proof.
  intros Hts.
  unfold emit, bind, fs_open, writeCSSMediaVars, writeTSProperties, bind,
    try, fh_write, fh_close.
  rewrite Hts. simpl. eexists. split; [reflexivity|]. simpl.
  repeat split.
  - intros p. rewrite !String.eqb_refl. simpl.
    destruct (String.eqb p typesFile); [reflexivity|].
    destruct (String.eqb p styleFile); reflexivity.
  - repeat rewrite <- app_assoc. reflexivity.
Qed.

Lemma emit_throws w :
  tsText = None ->
  exists w',
    emit w = (UncaughtTypeError, w') /\
    (forall p,
        files w' p
        = files (written w (cssText modifiersData) EmptyString) p) /\
    stderr w' = stderr w.
Proof.
  intros Hts.
  unfold emit, bind, fs_open, writeCSSMediaVars, writeTSProperties, bind,
    try, fh_write, fh_close.
  rewrite Hts. simpl. eexists. split; [reflexivity|]. simpl.
  split; [|reflexivity].
  intros p. rewrite !String.eqb_refl.
  destruct (String.eqb p typesFile); [reflexivity|].
  destruct (String.eqb p styleFile); reflexivity.
Qed.


End Emission.

(** ** The [for ... of] loops of the helpers, turn by turn *)

Module ForOf.

Section Loop.

(** The store the body works on. *)
Context {S : Type}.

(** The entries of the collection that the loop iterates, as the store has
    them when the iterator looks: the slots of a set, or the elements of an
    array. *)
Variable entries : S -> list (option string).

(** The body: it goes on with a new store ([inl]) or leaves the loop by
    [return] ([inr]). *)
Variable body : string -> S -> S + S.

Inductive Config : Type :=
| Running (store : S) (index : nat)
| Finished (store : S).

(** One turn: the iterator compares its index with the current number of
    entries, skips a hole, and hands an element to the body. *)
Inductive step : Config -> Config -> Prop :=
| step_hole s i :
    nth_error (entries s) i = Some None ->
    step (Running s i) (Running s (Datatypes.S i))
| step_body s i elem s' :
    nth_error (entries s) i = Some (Some elem) ->
    body elem s = inl s' ->
    step (Running s i) (Running s' (Datatypes.S i))
| step_return s i elem s' :
    nth_error (entries s) i = Some (Some elem) ->
    body elem s = inr s' ->
    step (Running s i) (Finished s')
| step_exhausted s i :
    nth_error (entries s) i = None ->
    step (Running s i) (Finished s).



End Loop.







End ForOf.

Module ForOfFacts.

Import ForOf IntersectionFacts.

Section Termination.

Context {S : Type}.
Variable entries : S -> list (option string).
Variable body : string -> S -> S + S.



Lemma finished_stuck s c : ~ step entries body (Finished s) c.
Proof. intros Hstep. inversion Hstep. Qed.

End Termination.








End ForOfFacts.

(** ** Sample inputs

    A small configuration in the shape of the real one: two longhand
    properties that share the alias [gap], one prop with a static default,
    three breakpoints and two modifiers.  [endent] is replaced by plain
    interpolation. *)

Module Sample.

Definition quote (s : string) : string := dq ++ s ++ dq.

Definition printArray (arr : list string) : string :=
  "[" ++ JsArray.join "," (map quote arr) ++ "]".

Definition gapType : list string :=
  ["Globals"; "(string & {})"; "'normal'"].

Definition config : Obj.t (StyleProp string) :=
  [("rowGap", {| aliases := Some ["gap"]; getDefault := NoDefault |});
   ("columnGap", {| aliases := Some ["gap"]; getDefault := NoDefault |});
   ("display", {| aliases := None; getDefault := DefaultStatic "block" |})].

Lemma config_object : Obj.wf config.
Proof.
  unfold Obj.wf. simpl.
  repeat (constructor; [simpl; intuition discriminate|]). constructor.
Qed.

Definition longhands : Obj.t LonghandProperty :=
  [("rowGap", {| jsDoc := "The row-gap property."; type := gapType |});
   ("columnGap",
    {| jsDoc := "The column-gap property.";
       type := ["Globals"; "'normal'"; "(string & {})"] |});
   ("display",
    {| jsDoc := "The display property.";
       type := ["Globals"; "'block'"; "'flex'"] |})].

(** The imports around a configuration and a csstype table: [endent] is
    plain interpolation, [decamelize] and [toPx] leave their argument as it
    is. *)
Definition make (config : Obj.t (StyleProp string))
           (config_is_object : Obj.wf config)
           (table : Obj.t LonghandProperty) : Imports := {|
  JSValue := string;
  endent := fun parts values =>
              (fix go (ps vs : list string) : string :=
                 match ps, vs with
                 | [], _ => EmptyString
                 | part :: ps', [] => part ++ go ps' []
                 | part :: ps', v :: vs' => part ++ v ++ go ps' vs'
                 end) parts values;
  decamelize := fun text _ => text;
  JSON_stringify_string := quote;
  JSON_stringify_array := printArray;
  JSON_stringify_array_indented := printArray;
  JSON_stringify_value := quote;
  tokenizedCSSStyleProps := [("space", ["rowGap"; "columnGap"; "gap"])];
  metaThemeDefault_breakpoints :=
    [("breakpoints-xs", "0rem"); ("breakpoints-sm", "30.625rem");
     ("breakpoints-md", "48rem")];
  toPx := fun v => Some v;
  disallowedCSSProperties := ["gap"];
  disallowedCSSPropertyValues := ["initial"];
  stylePropConfig := config;
  stylePropConfig_object := config_is_object;
  modifiersData := [(":hover", "_hover"); (":visited", "_visited")];
  cssCustomPropertyNamespace := "_";
  styleFile := "Box.module.css";
  typesFile := "generated-data.ts";
  BoxValueMapperFactory := fun _ v _ => v;
  BoxValueMapperFactory_toString := "(map) => (value) => value";
  getCSSTypeLonghandProperties := table
|}.

Definition imports : Imports := make config config_object longhands.

(** A configuration with a prop that csstype does not know. *)
Definition strayConfig : Obj.t (StyleProp string) :=
  [("rowGapp", {| aliases := Some ["gap"]; getDefault := NoDefault |})].

Lemma strayConfig_object : Obj.wf strayConfig.
Proof.
  unfold Obj.wf. simpl. constructor; [intros [] | constructor].
Qed.

Definition strayImports : Imports :=
  make strayConfig strayConfig_object longhands.

(** A configuration whose alias has the name of an allowed longhand
    property. *)
Definition collidingConfig : Obj.t (StyleProp string) :=
  [("rowGap", {| aliases := Some ["display"]; getDefault := NoDefault |})].

Lemma collidingConfig_object : Obj.wf collidingConfig.
Proof.
  unfold Obj.wf. simpl. constructor; [intros [] | constructor].
Qed.

Definition collidingImports : Imports :=
  make collidingConfig collidingConfig_object longhands.

(** A configuration whose alias stands for two props with no type in
    common. *)
Definition mismatchedConfig : Obj.t (StyleProp string) :=
  [("rowGap", {| aliases := Some ["gap"]; getDefault := NoDefault |});
   ("zIndex", {| aliases := Some ["gap"]; getDefault := NoDefault |})].

Lemma mismatchedConfig_object : Obj.wf mismatchedConfig.
Proof.
  unfold Obj.wf. simpl.
  repeat (constructor; [simpl; intuition discriminate|]). constructor.
Qed.

Definition mismatchedImports : Imports :=
  make mismatchedConfig mismatchedConfig_object
       [("rowGap", {| jsDoc := "The row-gap property.";
                      type := ["'normal'"; "(string & {})"] |});
        ("zIndex", {| jsDoc := "The z-index property.";
                      type := ["'auto'"; "(number & {})"] |})].

(** A world with no file. *)
Definition blank : World :=
  {| files := fun _ => None; stderr := []; fsLog := [] |}.

End Sample.


(** ** Building [inverseAliases] when the module is loaded

    The accumulator of the [reduce] at lines 48-57 is an object literal, so
    [acc[alias]] also finds what [Object.prototype] provides.  The tables
    above are the ones the module has once it is loaded; here is the loop
    as it runs, which throws when an alias has the name of a member of
    [Object.prototype]. *)

Section ModuleLoad.

Context `{Imports}.

Import ObjFacts.

(** The property names that every object inherits.  The values are
    functions, and [Object.prototype] itself for [__proto__]: none is
    [null] or [undefined], and none has a method [push]. *)
Definition objectPrototypeMembers : list string :=
  ["constructor"; "__defineGetter__"; "__defineSetter__"; "hasOwnProperty";
   "__lookupGetter__"; "__lookupSetter__"; "isPrototypeOf";
   "propertyIsEnumerable"; "toString"; "valueOf"; "__proto__";
   "toLocaleString"].

(** [alias in Object.prototype] *)
Definition inherited (alias : string) : bool :=
  JsArray.includes objectPrototypeMembers alias.

(** [acc[alias] = acc[alias] ?? []; acc[alias].push(prop)] on the real
    accumulator: when [alias] is not an own property and is inherited, the
    inherited value is kept and [push] is not a function. *)
Definition pushInverseLoaded (prop : string)
           (acc : option (Obj.t (list string))) (alias : string)
  : option (Obj.t (list string)) :=
  match acc with
  | None => None
  | Some table =>
      if negb (Obj.hasOwn table alias) && inherited alias then None
      else Some (pushInverse prop table alias)
  end.

Definition loadStep (acc : option (Obj.t (list string)))
           (entry : string * StyleProp JSValue)
  : option (Obj.t (list string)) :=
  let '(prop, config) := entry in
  fold_left (pushInverseLoaded prop) (aliasesOrEmpty config) acc.

Definition loadInverseAliases : option (Obj.t (list string)) :=
  fold_left loadStep (Obj.entries stylePropConfig) (Some []).

(** The module from its first line: the tables are built, then the script
    runs. *)
Definition program : Script unit :=
  try loadInverseAliases ;; main.

(** Some alias has the name of a member of [Object.prototype]. *)
Definition inheritedAlias : bool :=
  existsb inherited
          (JsArray.flat (map aliasesOrEmpty (Obj.values stylePropConfig))).

(** No key of the table is inherited. *)
Definition ownOnly (table : Obj.t (list string)) : Prop :=
  forall k, In k (Obj.keys table) -> inherited k = false.

Lemma pushInverse_ownOnly prop table alias :
  ownOnly table -> inherited alias = false ->
  ownOnly (pushInverse prop table alias).
Proof.
  intros Hown Halias k. unfold pushInverse. rewrite keys_set.
  destruct (Obj.hasOwn table alias); [apply Hown|].
  rewrite in_app_iff. intros [Hk|[<-|[]]]; [now apply Hown | assumption].
Qed.

Lemma pushes_ownOnly prop names :
  forall table,
    ownOnly table -> existsb inherited names = false ->
    ownOnly (fold_left (pushInverse prop) names table).
Proof.
  induction names as [|a names IH]; intros table Hown Hnone;
    cbn [fold_left existsb] in *; [assumption|].
  apply orb_false_iff in Hnone. destruct Hnone as [Ha Hnames].
  apply IH; [now apply pushInverse_ownOnly | assumption].
Qed.

Lemma pushes_loaded_None prop names :
  fold_left (pushInverseLoaded prop) names None = None.
Proof.
  induction names as [|a names IH]; cbn [fold_left]; [reflexivity | exact IH].
Qed.

Lemma pushes_loaded prop names :
  forall table,
    ownOnly table ->
    fold_left (pushInverseLoaded prop) names (Some table)
    = if existsb inherited names then None
      else Some (fold_left (pushInverse prop) names table).
Proof.
  induction names as [|a names IH]; intros table Hown;
    cbn [fold_left existsb pushInverseLoaded]; [reflexivity|].
  destruct (inherited a) eqn:Ha.
  - assert (Hnot : Obj.hasOwn table a = false).
    { destruct (Obj.hasOwn table a) eqn:Hhas; [|reflexivity].
      apply hasOwn_In, Hown in Hhas. congruence. }
    rewrite Hnot. cbn [negb andb orb]. apply pushes_loaded_None.
  - rewrite andb_false_r. cbn [orb].
    apply IH. now apply pushInverse_ownOnly.
Qed.

Lemma load_None entries : fold_left loadStep entries None = None.
Proof.
  induction entries as [|[prop config] entries IH]; cbn [fold_left loadStep];
    [reflexivity|].
  now rewrite pushes_loaded_None.
Qed.

Lemma load_fold entries :
  forall table,
    ownOnly table ->
    fold_left loadStep entries (Some table)
    = if existsb inherited
           (List.concat (map (fun e => aliasesOrEmpty (snd e)) entries))
      then None
      else Some (fold_left inverseStep entries table).
Proof.
  induction entries as [|[prop config] entries IH]; intros table Hown;
    cbn [fold_left loadStep inverseStep map List.concat snd];
    [reflexivity|].
  rewrite existsb_app, pushes_loaded by assumption.
  destruct (existsb inherited (aliasesOrEmpty config)) eqn:Hnone;
    cbn [orb]; [apply load_None|].
  apply IH. now apply pushes_ownOnly.
Qed.

(** The loop throws exactly when some alias is inherited; otherwise it
    builds [inverseAliases]. *)
Lemma loadInverseAliases_spec :
  loadInverseAliases
  = if inheritedAlias then None else Some inverseAliases.
Proof.
  unfold loadInverseAliases, inheritedAlias, JsArray.flat, Obj.values.
  rewrite load_fold by (intros k []).
  now rewrite map_map, inverseAliases_fold.
Qed.

Lemma program_run w :
  program w = if inheritedAlias then (UncaughtTypeError, w) else main w.
Proof.
  unfold program, bind, try. rewrite loadInverseAliases_spec.
  now destruct inheritedAlias.
Qed.

End ModuleLoad.

(** * The claims *)

Section Claims.

Context `{Imports}.

Import ObjFacts IntersectionFacts.





(** Every style prop that has aliases is a property of
    [cssLonghandProperties]. *)
Definition aliasedPropsKnown : bool :=
  forallb
    (fun '(prop, config) =>
       negb (hasAliases config) || Obj.hasOwn cssLonghandProperties prop)
    (Obj.entries stylePropConfig).

Lemma nonEmpty_In {A} (l : list A) : nonEmpty l = true <-> exists x, In x l.
Proof.
  unfold nonEmpty. destruct l as [|x l]; simpl.
  - split; [discriminate | intros [x []]].
  - split; [exists x; now left | reflexivity].
Qed.

Lemma aliasedPropsKnown_known :
  aliasedPropsKnown = true ->
  forall alias props,
    In (alias, props) (Obj.entries inverseAliases) -> known props.
Proof.
  intros Hall alias props Hentry prop Hprop.
  destruct (inverse_prop_configured _ _ _ stylePropConfig_object Hentry Hprop)
    as [config [Hget Halias]].
  unfold aliasedPropsKnown in Hall. rewrite forallb_forall in Hall.
  specialize (Hall _ (get_In _ _ _ Hget)). simpl in Hall.
  assert (Hhas : hasAliases config = true).
  { unfold hasAliases. unfold aliasesOrEmpty in Halias.
    destruct (aliases config) as [names|]; [|contradiction].
    apply nonEmpty_In. now exists alias. }
  rewrite Hhas in Hall. exact Hall.
Qed.







(** C3: [inverseAliases] is the inverse of the alias relation of
    [stylePropConfig]: a prop is listed under an alias exactly when the
    alias is among the aliases of the prop; the list under an alias is
    made by going over the props of [stylePropConfig] in enumeration
    order; and [allAliases] is duplicate-free and holds exactly the
    aliases that some entry of [stylePropConfig] names. *)
Theorem inverseAliases_inverse :
  (forall alias prop,
      (exists props,
          Obj.get inverseAliases alias = Some props /\ In prop props) <->
      (exists config names,
          Obj.get stylePropConfig prop = Some config /\
          aliases config = Some names /\ In alias names)) /\
  (forall alias props,
      Obj.get inverseAliases alias = Some props ->
      props = pushedFor alias (Obj.entries stylePropConfig)) /\
  NoDup allAliases /\
  (forall alias,
      In alias allAliases <->
      exists prop config names,
        In (prop, config) (Obj.entries stylePropConfig) /\
        aliases config = Some names /\ In alias names).
Proof.
  split; [|split; [|split]].
  - intros alias prop. split.
    + intros (props & Hget & Hprop).
      destruct (inverse_prop_configured alias props prop
                  stylePropConfig_object (get_In _ _ _ Hget) Hprop)
        as (config & Hconfig & Halias).
      unfold aliasesOrEmpty in Halias.
      destruct (aliases config) as [names|] eqn:Hnames; [|contradiction].
      now exists config, names.
    + intros (config & names & Hconfig & Hnames & Halias).
      assert (Hpushed : In prop (pushedFor alias (Obj.entries stylePropConfig))).
      { apply pushedFor_In. exists config. split; [now apply get_In|].
        unfold aliasesOrEmpty. now rewrite Hnames. }
      exists (pushedFor alias (Obj.entries stylePropConfig)).
      split; [|assumption]. apply inverseAliases_get. split; [reflexivity|].
      intros Hnil. now rewrite Hnil in Hpushed.
  - intros alias props Hget. now apply inverseAliases_get in Hget.
  - apply JsSetFacts.from_NoDup.
  - intros alias. unfold allAliases. rewrite JsSetFacts.from_In.
    unfold JsArray.flat. rewrite in_concat. split.
    + intros (names & Hnames & Halias). apply in_map_iff in Hnames.
      destruct Hnames as (config & <- & Hconfig).
      unfold Obj.values in Hconfig. apply in_map_iff in Hconfig.
      destruct Hconfig as ([prop config'] & Heq & Hentry). simpl in Heq.
      subst config'. unfold aliasesOrEmpty in Halias.
      destruct (aliases config) as [names|] eqn:Hnames; [|contradiction].
      now exists prop, config, names.
    + intros (prop & config & names & Hentry & Hnames & Halias).
      exists (aliasesOrEmpty config). split.
      * apply in_map. unfold Obj.values.
        change config with (snd (prop, config)). now apply in_map.
      * unfold aliasesOrEmpty. now rewrite Hnames.
Qed.

(** C4: when the type lists of the props of every alias have a non-empty
    intersection, [createMinimumCommonUnionForAlias] does not take the
    branch that returns [never] for any alias of [inverseAliases]: the
    alias type is the reference to the type of the first prop or an
    [Exclude] over it. *)
Theorem alias_type_not_never :
  (forall alias props,
      In (alias, props) (Obj.entries inverseAliases) ->
      exists types,
        typesOf props = Some types /\ getArrayIntersection types <> []) ->
  forall alias props,
    In (alias, props) (Obj.entries inverseAliases) ->
    exists first others,
      props = first :: others /\
      minimumCommonUnion props <> Some Never /\
      ((minimumCommonUnion props = Some (SameAsFirst first) /\
        createMinimumCommonUnionForAlias props
        = Some ("LonghandStyleProps['" ++ first ++ "']"))
       \/
       exists typesToRemoveFromFirst,
         minimumCommonUnion props
         = Some (ExcludeFromFirst first typesToRemoveFromFirst) /\
         createMinimumCommonUnionForAlias props
         = Some (endent
                   [LF ++ "      Exclude<" ++ LF
                       ++ "          LonghandStyleProps['";
                    "']," ++ LF ++ "          ";
                    LF ++ "        >" ++ LF ++ "    "]
                   [first; generateTSPickList typesToRemoveFromFirst 0])).
Proof.
  intros Hoverlap alias props Hentry.
  destruct (Hoverlap alias props Hentry) as (types & Htypes & Hinter).
  assert (Hprops : props <> []).
  { apply (In_get _ _ _ inverseAliases_wf) in Hentry.
    now apply inverseAliases_filled in Hentry. }
  destruct props as [|first others]; [congruence|].
  exists first, others. split; [reflexivity|].
  unfold createMinimumCommonUnionForAlias, minimumCommonUnion.
  rewrite Htypes. unfold firstOf. simpl List.hd_error. simpl interpolate.
  destruct (arraysAreEqualSets types).
  - split; [discriminate|]. left. split; reflexivity.
  - destruct (Nat.eqb (List.length (getArrayIntersection types)) 0) eqn:Hlen.
    + apply Nat.eqb_eq, length_zero_iff_nil in Hlen. congruence.
    + split; [discriminate|]. right. eexists. split; reflexivity.
Qed.

Lemma nth_error_tl {A} (l : list A) i :
  nth_error (List.tl l) i = nth_error l (S i).
Proof. destruct l; [now destruct i | reflexivity]. Qed.

(** C5: the text written to the style file is the [endent] template whose
    literal frame is the banner, the block [.Box { ... }] around the
    defaults, and the places of the media queries and of the modifier
    rules.  The media queries are one line per breakpoint but the first,
    in the order of the breakpoints, each setting the custom property
    [--<namespace><key>] to a space inside a [.Box] rule; and the defaults
    inside the [.Box] block set each of these custom properties to
    [initial]. *)
Theorem media_queries_per_breakpoint (modifiers : Obj.t string) :
  exists rules initials modifierDefaults,
    (forall file w,
        writeCSSMediaVars modifiers file w
        = fh_write file
            (endent
               [LF ++ "    /* THIS FILE IS AUTO GENERATED, DO NOT TOUCH */"
                   ++ LF ++ "    .Box {" ++ LF ++ "      ";
                LF ++ "      ";
                LF ++ "    }" ++ LF ++ LF ++ "    ";
                LF ++ LF ++ "    ";
                LF ++ "  "]
               [defaultCSSProperties;
                endent [LF ++ "    "; LF ++ LF ++ "    "; LF ++ "  "]
                       [JsArray.join LF initials; modifierDefaults];
                JsArray.join LF rules;
                selectorsEnabled modifiers]) w) /\
    List.length rules = List.length breakpoints - 1 /\
    List.length initials = List.length breakpoints - 1 /\
    forall i b,
      nth_error breakpoints (S i) = Some b ->
      nth_error rules i
      = Some ("@media screen and (min-width: " ++ interpolate (value b)
                ++ ") { .Box { --" ++ cssCustomPropertyNamespace ++ key b
                ++ ": ; } }") /\
      nth_error initials i
      = Some ("--" ++ cssCustomPropertyNamespace ++ key b ++ ": initial;").
Proof.
  exists (map mediaQuery breakpointsWithoutXs),
         (map initialLine breakpointsWithoutXs).
  eexists. split; [intros file w; reflexivity|].
  unfold breakpointsWithoutXs, JsArray.slice1.
  rewrite !length_map.
  assert (Hlen : List.length (List.tl breakpoints)
                 = List.length breakpoints - 1).
  { destruct breakpoints; simpl; lia. }
  split; [exact Hlen|]. split; [exact Hlen|].
  intros i b Hb. rewrite !nth_error_map, !nth_error_tl, Hb.
  split; reflexivity.
Qed.

(** C6: for every modifier the style sheet has a rule [.Box<selector>]
    with one declaration per breakpoint, the base key included, that sets
    [--<namespace><key><modifierName>] to nothing for the base key and to
    [var(--<namespace><key>)] for every other key. *)
Theorem modifier_rules (modifiers : Obj.t string) :
  exists rules,
    selectorsEnabled modifiers = JsArray.join (LF ++ LF) rules /\
    List.length rules = List.length (Obj.entries modifiers) /\
    (exists base,
        breakpointsWithBaseXs = base :: List.tl breakpoints /\
        key base = EmptyString) /\
    forall j selector modifierName,
      nth_error (Obj.entries modifiers) j = Some (selector, modifierName) ->
      exists lines,
        nth_error rules j
        = Some (endent
                  [LF ++ "        .Box"; " {" ++ LF ++ "          ";
                   LF ++ "        }"]
                  [selector; JsArray.join LF lines]) /\
        List.length lines = List.length breakpointsWithBaseXs /\
        forall i b,
          nth_error breakpointsWithBaseXs i = Some b ->
          nth_error lines i
          = Some ("--" ++ cssCustomPropertyNamespace ++ key b
                    ++ modifierName ++ ": "
                    ++ (if String.eqb (key b) EmptyString then EmptyString
                        else "var(--" ++ cssCustomPropertyNamespace
                               ++ key b ++ ")")
                    ++ ";").
Proof.
  exists (map selectorRule (Obj.entries modifiers)).
  split; [reflexivity|]. split; [apply length_map|]. split.
  - eexists. split; reflexivity.
  - intros j selector modifierName Hentry.
    exists (map (modifierLine modifierName) breakpointsWithBaseXs).
    rewrite nth_error_map, Hentry. split; [reflexivity|].
    split; [apply length_map|].
    intros i b Hb. rewrite nth_error_map, Hb. reflexivity.
Qed.

(** C7: [getArrayIntersection] returns a duplicate-free array; called
    with at least one array, its elements are exactly the elements that
    occur in every array; called with no array, it returns the empty
    array. *)
Theorem getArrayIntersection_correct (arrs : list (list string)) :
  NoDup (getArrayIntersection arrs) /\
  (forall elem,
      In elem (getArrayIntersection arrs) <->
      arrs <> [] /\ forall arr, In arr arrs -> In elem arr) /\
  getArrayIntersection [] = [].
Proof.
  split; [apply getArrayIntersection_NoDup|]. split; [|reflexivity].
  intros elem. rewrite getArrayIntersection_In. split.
  - intros [Hflat Hall]. split; [|assumption].
    intros ->. exact Hflat.
  - intros [Hne Hall]. split; [|assumption].
    destruct arrs as [|arr arrs]; [congruence|].
    unfold JsArray.flat. simpl. apply in_or_app. left. apply Hall. now left.
Qed.

End Claims.

(** ** The Toast timeout *)

Module ToastFacts.

Import Toast.

(** The number passed as [duration], when there is one. *)
Definition given (n : option float) : float :=
  match n with
  | Some d => d
  | None => PrimFloat.nan
  end.

(** C10: the delay passed to [setTimeout] is the given duration when it
    is truthy, else 10000 when an action is provided, else 5000; a truthy
    duration below 10000 given together with an action is used as it is,
    and the only effect is one line logged to the console. *)
Theorem timeout_duration_spec (props : ToastProps) :
  timeoutDuration props
  = (if truthy (duration props) then given (duration props)
     else if provided (action props)
          then DEFAULT_TOAST_DURATION_WITH_ACTION
          else DEFAULT_TOAST_DURATION) /\
  logged props
  = (if provided (action props) && truthy (duration props)
        && belowActionDefault (duration props)
     then [warning] else []) /\
  DEFAULT_TOAST_DURATION_WITH_ACTION = 10000%float /\
  DEFAULT_TOAST_DURATION = 5000%float.
Proof.
  unfold timeoutDuration, logged, effect, orDefault.
  destruct props as [[d|] [a|]]; simpl;
    try destruct (negb (PrimFloat.eqb d 0 || PrimFloat.is_nan d));
    simpl; try destruct (PrimFloat.ltb d DEFAULT_TOAST_DURATION_WITH_ACTION);
    repeat split.
Qed.

End ToastFacts.

(** * The claims on the sample inputs *)

Module SampleRuns.

Import Sample.

Example intersection_of_three :
  getArrayIntersection
    [["a"; "b"; "c"; "a"]; ["c"; "d"; "a"]; ["a"; "c"; "c"]]
  = ["a"; "c"].
Proof. vm_compute. reflexivity. Qed.

Example difference_of_two :
  getArrayDifference [["a"; "b"; "c"; "a"]; ["c"; "d"]] = ["a"; "b"].
Proof. vm_compute. reflexivity. Qed.

Example equal_sets : arraysAreEqualSets [["a"; "b"; "a"]; ["b"; "a"]] = true.
Proof. vm_compute. reflexivity. Qed.

Example set_iteration_after_delete :
  intersection_scan ["b"] [Some "a"; None; Some "b"; Some "c"] 0
  = [None; None; Some "b"; None] /\
  getArrayIntersection [["a"; "a"; "b"]] = ["a"; "b"] /\
  getArrayIntersection [["a"; "b"]; []] = [].
Proof. vm_compute. repeat split. Qed.

Example join_english :
  joinEnglish [] = EmptyString /\
  joinEnglish ["_hover"] = "_hover" /\
  joinEnglish ["_hover"; "_visited"] = "_hover and _visited" /\
  joinEnglish ["a"; "b"; "c"] = "a, b and c".
Proof. vm_compute. repeat split. Qed.

Example pick_list :
  generateTSPickList ["'gap'"; "'rowGap'"] 2
  = "'gap'" ++ LF ++ "  | 'rowGap'".
Proof. vm_compute. reflexivity. Qed.

Example sample_breakpoints :
  @breakpoints imports
  = [{| key := "xs"; value := Some "0rem" |};
     {| key := "sm"; value := Some "30.625rem" |};
     {| key := "md"; value := Some "48rem" |}] /\
  replace "breakpoints-" EmptyString "my-breakpoints-breakpoints-x"
  = "my-breakpoints-x".
Proof. vm_compute. split; reflexivity. Qed.

Example sample_tables :
  @allAliases imports = ["gap"] /\
  @inverseAliases imports = [("gap", ["rowGap"; "columnGap"])] /\
  @typeMismatches imports = Some [] /\
  @aliasCollisions imports = [].
Proof. vm_compute. repeat split. Qed.

Example sample_alias_types :
  @minimumCommonUnion imports ["rowGap"; "columnGap"]
  = Some (SameAsFirst "rowGap") /\
  @minimumCommonUnion imports ["rowGap"; "display"]
  = Some (ExcludeFromFirst "rowGap" ["(string & {})"; "'normal'"]).
Proof. vm_compute. split; reflexivity. Qed.

Example colliding_run_exits :
  fst (@main collidingImports blank) = ProcessExit (-1) /\
  fsLog (snd (@main collidingImports blank)) = [] /\
  List.length (stderr (snd (@main collidingImports blank))) = 1.
Proof. vm_compute. repeat split. Qed.

Example mismatched_run_exits :
  fst (@main mismatchedImports blank) = ProcessExit (-1) /\
  @typeMismatches mismatchedImports = Some ["gap"] /\
  fsLog (snd (@main mismatchedImports blank)) = [] /\
  List.length (stderr (snd (@main mismatchedImports blank))) = 1.
Proof. vm_compute. repeat split. Qed.

Example stray_run_throws :
  fst (@main strayImports blank) = UncaughtTypeError /\
  @aliasCollisions strayImports = [] /\
  fsLog (snd (@main strayImports blank)) = [].
Proof. vm_compute. repeat split. Qed.




Lemma sample_overlap :
  forall alias props,
    In (alias, props) (Obj.entries (@inverseAliases imports)) ->
    exists types,
      @typesOf imports props = Some types /\
      getArrayIntersection types <> [].
Proof.
  intros alias props Hin. vm_compute in Hin.
  destruct Hin as [Heq|[]]. injection Heq as <- <-.
  eexists. split; [vm_compute; reflexivity|].
  vm_compute. discriminate.
Defined.

Lemma alias_type_not_never_sample :
  exists first others,
    ["rowGap"; "columnGap"] = first :: others /\
    @minimumCommonUnion imports ["rowGap"; "columnGap"] <> Some Never /\
    ((@minimumCommonUnion imports ["rowGap"; "columnGap"]
      = Some (SameAsFirst first) /\
      @createMinimumCommonUnionForAlias imports ["rowGap"; "columnGap"]
      = Some ("LonghandStyleProps['" ++ first ++ "']"))
     \/
     exists typesToRemoveFromFirst,
       @minimumCommonUnion imports ["rowGap"; "columnGap"]
       = Some (ExcludeFromFirst first typesToRemoveFromFirst) /\
       @createMinimumCommonUnionForAlias imports ["rowGap"; "columnGap"]
       = Some (@endent imports
                 [LF ++ "      Exclude<" ++ LF
                     ++ "          LonghandStyleProps['";
                  "']," ++ LF ++ "          ";
                  LF ++ "        >" ++ LF ++ "    "]
                 [first;
                  @generateTSPickList typesToRemoveFromFirst 0])).
Proof.
  apply (@alias_type_not_never imports sample_overlap "gap").
  vm_compute. left. reflexivity.
Defined.

Example toast_with_action_and_short_duration :
  Toast.timeoutDuration
    {| Toast.duration := Some 3000%float;
       Toast.action := Some {| Toast.content := "Undo" |} |}
  = 3000%float /\
  Toast.logged
    {| Toast.duration := Some 3000%float;
       Toast.action := Some {| Toast.content := "Undo" |} |}
  = [Toast.warning].
Proof. vm_compute. split; reflexivity. Qed.

Example toast_defaults :
  Toast.timeoutDuration {| Toast.duration := None; Toast.action := None |}
  = 5000%float /\
  Toast.timeoutDuration
    {| Toast.duration := Some 0%float;
       Toast.action := Some {| Toast.content := "Undo" |} |}
  = 10000%float /\
  Toast.timeoutDuration
    {| Toast.duration := Some PrimFloat.nan; Toast.action := None |}
  = 5000%float.
Proof. vm_compute. repeat split. Qed.

End SampleRuns.

(** * Further properties of the helpers *)

Module HelperFacts.

Import JsSetFacts IntersectionFacts.

(** The elements of a list in the order of their first occurrence: what
    [Array.from(new Set(arr))] is expected to be. *)
Fixpoint uniq (l : list string) : list string :=
  match l with
  | [] => []
  | x :: rest => x :: filter (fun y => negb (String.eqb y x)) (uniq rest)
  end.

Lemma filter_comm {A} (p q : A -> bool) l :
  filter p (filter q l) = filter q (filter p l).
Proof.
  induction l as [|x l IH]; simpl; [reflexivity|].
  destruct (p x) eqn:Hp, (q x) eqn:Hq; simpl; rewrite ?Hp, ?Hq, IH;
    reflexivity.
Qed.

Lemma filter_filter_and {A} (p q : A -> bool) l :
  filter p (filter q l) = filter (fun x => q x && p x) l.
Proof.
  induction l as [|x l IH]; simpl; [reflexivity|].
  destruct (q x); simpl; [destruct (p x)|]; now rewrite IH.
Qed.

Lemma uniq_filter p l : uniq (filter p l) = filter p (uniq l).
Proof.
  induction l as [|x l IH]; simpl; [reflexivity|].
  destruct (p x) eqn:Hp; simpl.
  - rewrite ?Hp, IH. f_equal. apply filter_comm.
  - rewrite IH, filter_filter_and. apply filter_ext_in.
    intros y _. destruct (String.eqb_spec y x) as [->|]; simpl;
      [exact Hp | reflexivity].
Qed.

Lemma has_snoc x d e :
  has x (d ++ [Some e])%list = has x d || String.eqb e x.
Proof.
  unfold has. rewrite existsb_app. simpl. now rewrite orb_false_r.
Qed.

Lemma fold_add_values elems :
  forall d,
    values (fold_left (fun s e => add e s) elems d)
    = (values d ++ uniq (filter (fun x => negb (has x d)) elems))%list.
Proof.
  induction elems as [|e elems IH]; intros d; simpl.
  - now rewrite app_nil_r.
  - rewrite IH. unfold add. destruct (has e d) eqn:Hhas; simpl.
    + reflexivity.
    + rewrite values_app. simpl. rewrite <- app_assoc. simpl. do 2 f_equal.
      rewrite <- uniq_filter, filter_filter_and. f_equal.
      apply filter_ext. intros y. rewrite has_snoc, negb_orb.
      now rewrite (String.eqb_sym e y).
Qed.

(** [Array.from(new Set(elems))] *)
Lemma from_values elems : values (from elems) = uniq elems.
Proof.
  unfold from. rewrite fold_add_values. simpl. f_equal.
  apply forallb_filter_id. now apply forallb_forall.
Qed.

End HelperFacts.

Module HelperProperties.

Import JsSetFacts IntersectionFacts HelperFacts.

Lemma uniq_In l x : In x (uniq l) <-> In x l.
Proof. rewrite <- from_values. apply from_In. Qed.

Lemma uniq_NoDup l : NoDup (uniq l).
Proof. rewrite <- from_values. apply from_NoDup. Qed.

Lemma uniq_id l : NoDup l -> uniq l = l.
Proof.
  induction 1 as [|x l Hx Hl IH]; simpl; [reflexivity|].
  rewrite IH. f_equal. apply forallb_filter_id, forallb_forall.
  intros y Hy. destruct (String.eqb_spec y x) as [->|]; [contradiction|].
  reflexivity.
Qed.

(** [arrs.every((arr) => arr.includes(elem))] *)
Definition inAll (arrs : list (list string)) (elem : string) : bool :=
  forallb (fun arr => JsArray.includes arr elem) arrs.

(** [arrs.some((arr) => arr.includes(elem))] *)
Definition inSome (arrs : list (list string)) (elem : string) : bool :=
  existsb (fun arr => JsArray.includes arr elem) arrs.

Lemma scans_filter arrs :
  forall d,
    NoDup (values d) ->
    values (fold_left (fun inter arr => intersection_scan arr inter 0) arrs d)
    = filter (inAll arrs) (values d).
Proof.
  induction arrs as [|arr arrs IH]; intros d Hd; simpl.
  - symmetry. apply forallb_filter_id. now apply forallb_forall.
  - rewrite IH.
    + rewrite intersection_scan_filter by assumption.
      apply filter_filter_and.
    + rewrite intersection_scan_filter by assumption. now apply NoDup_filter.
Qed.

Lemma deletes_filter arr :
  forall d,
    NoDup (values d) ->
    values (fold_left (fun u elem => delete elem u) arr d)
    = filter (fun x => negb (JsArray.includes arr x)) (values d).
Proof.
  induction arr as [|e arr IH]; intros d Hd; simpl.
  - symmetry. apply forallb_filter_id. now apply forallb_forall.
  - rewrite IH by (rewrite values_delete by assumption; now apply NoDup_filter).
    rewrite values_delete by assumption. rewrite filter_filter_and.
    apply filter_ext. intros x. now rewrite negb_orb.
Qed.

Lemma differences_filter others :
  forall d,
    NoDup (values d) ->
    values (fold_left
              (fun u arr => fold_left (fun u' elem => delete elem u') arr u)
              others d)
    = filter (fun x => negb (inSome others x)) (values d).
Proof.
  induction others as [|arr others IH]; intros d Hd; simpl.
  - symmetry. apply forallb_filter_id. now apply forallb_forall.
  - rewrite IH by (rewrite deletes_filter by assumption; now apply NoDup_filter).
    rewrite deletes_filter by assumption. rewrite filter_filter_and.
    apply filter_ext. intros x. now rewrite negb_orb.
Qed.

Lemma inAll_true arrs elem :
  inAll arrs elem = true <-> forall arr, In arr arrs -> In elem arr.
Proof.
  unfold inAll. rewrite forallb_forall. split; intros Hall arr Harr.
  - now apply JsArray.includes_In, Hall.
  - now apply JsArray.includes_In, Hall.
Qed.

Lemma inSome_true arrs elem :
  inSome arrs elem = true <-> exists arr, In arr arrs /\ In elem arr.
Proof.
  unfold inSome. rewrite existsb_exists.
  split; intros (arr & Harr & Helem); exists arr; split; try assumption;
    now apply JsArray.includes_In.
Qed.

Lemma inAll_false arrs elem :
  inAll arrs elem = false <-> exists arr, In arr arrs /\ ~ In elem arr.
Proof.
  unfold inAll. split.
  - intros Hnot. induction arrs as [|arr arrs IH]; [discriminate|].
    simpl in Hnot. apply andb_false_iff in Hnot. destruct Hnot as [Hnot|Hnot].
    + exists arr. split; [now left | now apply JsArray.includes_not_In].
    + destruct (IH Hnot) as (arr' & Harr' & Helem). exists arr'.
      split; [now right | assumption].
  - intros (arr & Harr & Helem).
    destruct (forallb _ arrs) eqn:Hall; [|reflexivity].
    rewrite forallb_forall in Hall. apply Hall, JsArray.includes_In in Harr.
    contradiction.
Qed.

Lemma getArrayDifference_filter first others :
  getArrayDifference (first :: others)
  = filter (fun x => negb (inSome others x)) (uniq first).
Proof.
  unfold getArrayDifference.
  rewrite differences_filter by apply from_NoDup.
  now rewrite from_values.
Qed.

Lemma getArrayDifference_In first others elem :
  In elem (getArrayDifference (first :: others)) <->
  In elem first /\ forall arr, In arr others -> ~ In elem arr.
Proof.
  rewrite getArrayDifference_filter, filter_In, uniq_In, negb_true_iff.
  split.
  - intros [Hin Hnone]. split; [assumption|]. intros arr Harr Helem.
    assert (Hsome : inSome others elem = true); [|congruence].
    apply inSome_true. now exists arr.
  - intros [Hin Hnone]. split; [assumption|].
    destruct (inSome others elem) eqn:Hsome; [|reflexivity].
    apply inSome_true in Hsome. destruct Hsome as (arr & Harr & Helem).
    now destruct (Hnone arr Harr).
Qed.

(** X1: [getArrayDifference(first, ...others)] returns the elements of
    [first] that occur in none of the other arrays, each once, in the order
    of their first occurrence in [first]; called with no array it returns
    the empty array. *)
Theorem getArrayDifference_correct (first : list string)
        (others : list (list string)) :
  getArrayDifference (first :: others)
  = filter (fun x => negb (inSome others x)) (uniq first) /\
  NoDup (getArrayDifference (first :: others)) /\
  (forall elem,
      In elem (getArrayDifference (first :: others)) <->
      In elem first /\ forall arr, In arr others -> ~ In elem arr) /\
  getArrayDifference [] = [].
Proof.
  split; [apply getArrayDifference_filter|].
  split; [rewrite getArrayDifference_filter; apply NoDup_filter, uniq_NoDup|].
  split; [apply getArrayDifference_In | reflexivity].
Qed.

Lemma getArrayIntersection_filter arrs :
  getArrayIntersection arrs = filter (inAll arrs) (uniq (JsArray.flat arrs)).
Proof.
  unfold getArrayIntersection.
  rewrite scans_filter by apply from_NoDup.
  rewrite !from_values. now rewrite (uniq_id _ (uniq_NoDup _)).
Qed.

(** X2: [getArrayIntersection] lists the common elements in the order of
    their first occurrence in the concatenation of its arguments. *)
Theorem getArrayIntersection_order (arrs : list (list string)) :
  getArrayIntersection arrs = filter (inAll arrs) (uniq (JsArray.flat arrs)) /\
  (forall arr, getArrayIntersection [arr] = uniq arr).
Proof.
  split; [apply getArrayIntersection_filter|].
  intros arr. rewrite getArrayIntersection_filter.
  unfold JsArray.flat. simpl. rewrite app_nil_r.
  apply forallb_filter_id, forallb_forall. intros x Hx. unfold inAll. simpl.
  rewrite andb_true_r. now apply JsArray.includes_In, uniq_In.
Qed.

Lemma sets_equal_iff (first arr : list string) :
  (if negb (Nat.eqb (size (from first)) (size (from arr))) then false
   else forallb (fun elem => has elem (from arr)) (values (from first)))
  = true <->
  forall x, In x first <-> In x arr.
Proof.
  unfold size.
  pose proof (from_NoDup first) as Hn1. pose proof (from_NoDup arr) as Hn2.
  split.
  - destruct (Nat.eqb_spec (List.length (values (from first)))
                           (List.length (values (from arr)))) as [Hlen|Hlen];
      simpl; [|discriminate].
    intros Hall. rewrite forallb_forall in Hall.
    assert (Hincl : incl (values (from first)) (values (from arr))).
    { intros x Hx. apply has_In. now apply Hall. }
    assert (Hback : incl (values (from arr)) (values (from first))).
    { apply NoDup_length_incl; [assumption | lia | assumption]. }
    intros x. rewrite <- (from_In first), <- (from_In arr).
    split; [apply Hincl | apply Hback].
  - intros Hsame.
    assert (Hincl : incl (values (from first)) (values (from arr))).
    { intros x. rewrite !from_In. apply Hsame. }
    assert (Hback : incl (values (from arr)) (values (from first))).
    { intros x. rewrite !from_In. apply Hsame. }
    pose proof (NoDup_incl_length Hn1 Hincl).
    pose proof (NoDup_incl_length Hn2 Hback).
    destruct (Nat.eqb_spec (List.length (values (from first)))
                           (List.length (values (from arr)))) as [Hlen|Hlen];
      simpl; [|lia].
    apply forallb_forall. intros x Hx. apply has_In. now apply Hincl.
Qed.

Lemma arraysAreEqualSets_correct_tl (arrs : list (list string)) :
  arraysAreEqualSets arrs = true ->
  forall arr, In arr (List.tl arrs) ->
              forall x, In x (List.hd [] arrs) <-> In x arr.
Proof.
  unfold arraysAreEqualSets, JsArray.slice1. rewrite forallb_forall.
  intros Hall arr Harr. apply sets_equal_iff. now apply Hall.
Qed.

(** X3: [arraysAreEqualSets] answers [true] exactly when every array after
    the first has the same elements as the first, whatever their order and
    their repetitions; with one array or none it answers [true]. *)
Theorem arraysAreEqualSets_correct (arrs : list (list string)) :
  arraysAreEqualSets arrs = true <->
  forall arr, In arr (List.tl arrs) ->
              forall x, In x (List.hd [] arrs) <-> In x arr.
Proof.
  unfold arraysAreEqualSets, JsArray.slice1. rewrite forallb_forall.
  split.
  - intros Hall arr Harr. apply sets_equal_iff. now apply Hall.
  - intros Hall arr Harr. apply sets_equal_iff. now apply Hall.
Qed.

End HelperProperties.

(** * Further properties of the generator *)

Section AliasTypes.

Context `{Imports}.

Import ObjFacts IntersectionFacts HelperFacts HelperProperties.

Lemma minimumCommonUnion_unfold props types :
  typesOf props = Some types ->
  minimumCommonUnion props =
  Some (if arraysAreEqualSets types then SameAsFirst (firstOf props)
        else if Nat.eqb (List.length (getArrayIntersection types)) 0
             then Never
             else ExcludeFromFirst (firstOf props)
                    (getArrayIntersection
                       [List.hd [] types;
                        getArrayDifference
                          [JsArray.flat types; getArrayIntersection types]])).
Proof.
  intros Htypes. unfold minimumCommonUnion. rewrite Htypes.
  destruct (arraysAreEqualSets types); [reflexivity|].
  now destruct (Nat.eqb _ 0).
Qed.

(** The members of the first type list that [ExcludeFromFirst] removes. *)
Lemma typesToRemove_In types t :
  In t (getArrayIntersection
          [List.hd [] types;
           getArrayDifference
             [JsArray.flat types; getArrayIntersection types]]) <->
  In t (List.hd [] types) /\ exists ts, In ts types /\ ~ In t ts.
Proof.
  split.
  - intros Hin. apply getArrayIntersection_In in Hin.
    destruct Hin as [_ Hboth]. split; [apply Hboth; now left|].
    assert (Hdiff : In t (getArrayDifference
                            [JsArray.flat types; getArrayIntersection types]))
      by (apply Hboth; right; now left).
    apply getArrayDifference_In in Hdiff. destruct Hdiff as [Hflat Hnot].
    apply inAll_false. destruct (inAll types t) eqn:Hall; [|reflexivity].
    exfalso. apply (Hnot (getArrayIntersection types)); [now left|].
    apply getArrayIntersection_In. split; [assumption|].
    now apply inAll_true.
  - intros [Hhd (ts & Hts & Hnot)].
    assert (Hflat : In t (JsArray.flat types)).
    { destruct types as [|first others]; [destruct Hts|].
      unfold JsArray.flat. simpl. apply in_or_app. now left. }
    apply getArrayIntersection_In. split.
    + unfold JsArray.flat. cbn [List.concat]. apply in_or_app. now left.
    + intros arr [<-|[<-|[]]]; [assumption|].
      apply getArrayDifference_In. split; [assumption|].
      intros arr [<-|[]] Hinter.
      apply getArrayIntersection_In in Hinter. destruct Hinter as [_ Hall].
      now apply Hnot, Hall.
Qed.

(** All type lists have the members of the first. *)
Definition sameMembers (types : list (list string)) : Prop :=
  forall ts, In ts (List.tl types) ->
             forall t, In t (List.hd [] types) <-> In t ts.

(** Some member is in every type list. *)
Definition commonMember (types : list (list string)) : Prop :=
  exists t, forall ts, In ts types -> In t ts.

Lemma arraysAreEqualSets_sameMembers types :
  arraysAreEqualSets types = true <-> sameMembers types.
Proof.
  split; [intros Hequal; exact (arraysAreEqualSets_correct_tl types Hequal)|].
  intros Hsame. unfold arraysAreEqualSets, JsArray.slice1.
  apply forallb_forall. intros arr Harr. apply sets_equal_iff.
  now apply Hsame.
Qed.

(** What [createMinimumCommonUnionForAlias] returns, case by case. *)
Definition aliasTypeRule (props : list string) (types : list (list string))
  : Prop :=
  (sameMembers types ->
   minimumCommonUnion props = Some (SameAsFirst (firstOf props))) /\
  (~ sameMembers types -> ~ commonMember types ->
   minimumCommonUnion props = Some Never) /\
  (~ sameMembers types -> commonMember types ->
   exists typesToRemoveFromFirst,
     minimumCommonUnion props
     = Some (ExcludeFromFirst (firstOf props) typesToRemoveFromFirst) /\
     NoDup typesToRemoveFromFirst /\
     (forall t,
         In t typesToRemoveFromFirst <->
         In t (List.hd [] types) /\ exists ts, In ts types /\ ~ In t ts) /\
     (forall t,
         In t (List.hd [] types) /\ ~ In t typesToRemoveFromFirst <->
         forall ts, In ts types -> In t ts)).

(** X4: what [createMinimumCommonUnionForAlias] decides, for props whose
    types are known.  When all type lists have the same members it returns
    the reference to the first prop; when they do not and no member is
    common to all, it returns [never]; when they do not and some member is
    common, it returns an [Exclude] that removes, from the type of the
    first prop, exactly the members of its type list that some other type
    list lacks, so that what remains of the first type list is the members
    common to all. *)
Theorem minimumCommonUnion_spec (props : list string)
        (types : list (list string)) :
  typesOf props = Some types -> aliasTypeRule props types.
Proof.
  intros Htypes. unfold aliasTypeRule.
  rewrite (minimumCommonUnion_unfold props types Htypes).
  split; [|split].
  - intros Hsame. apply arraysAreEqualSets_sameMembers in Hsame.
    now rewrite Hsame.
  - intros Hdiff Hnone.
    destruct (arraysAreEqualSets types) eqn:Hequal;
      [now apply arraysAreEqualSets_sameMembers in Hequal|].
    assert (Hne : types <> []) by (intros ->; discriminate Hequal).
    destruct (Nat.eqb (List.length (getArrayIntersection types)) 0) eqn:Hlen;
      [reflexivity|].
    exfalso. apply Hnone.
    destruct (getArrayIntersection types) as [|t rest] eqn:Hinter;
      [discriminate Hlen|].
    exists t. apply (getArrayIntersection_In types t). rewrite Hinter.
    now left.
  - intros Hdiff [t0 Hcommon].
    destruct (arraysAreEqualSets types) eqn:Hequal;
      [now apply arraysAreEqualSets_sameMembers in Hequal|].
    assert (Hne : types <> []) by (intros ->; discriminate Hequal).
    destruct (Nat.eqb (List.length (getArrayIntersection types)) 0) eqn:Hlen.
    + exfalso. apply getArrayIntersection_empty in Hlen. apply Hlen.
      exists t0. split; [|assumption].
      destruct types as [|first others]; [congruence|].
      unfold JsArray.flat. simpl. apply in_or_app. left. apply Hcommon.
      now left.
    + eexists. split; [reflexivity|].
      split; [apply getArrayIntersection_NoDup|].
      split; [apply typesToRemove_In|].
      intros t. rewrite typesToRemove_In. split.
      * intros [Hhd Hnot] ts Hts.
        destruct (inAll types t) eqn:Hall.
        -- now apply (proj1 (inAll_true types t) Hall).
        -- apply inAll_false in Hall. exfalso. apply Hnot. now split.
      * intros Hall. split.
        -- destruct types as [|first others]; [congruence|].
           apply Hall. now left.
        -- intros [_ (ts & Hts & Hnot)]. now apply Hnot, Hall.
Qed.

(** X5: when the type list of the first prop is not empty and all of its
    members are in every other type list, while the lists are not all the
    same set, the function returns an [Exclude] over the first type with
    nothing to exclude: its pick list is empty. *)
Theorem minimumCommonUnion_empty_exclusion (props : list string)
        (types : list (list string)) :
  typesOf props = Some types ->
  arraysAreEqualSets types = false ->
  List.hd [] types <> [] ->
  (forall t, In t (List.hd [] types) ->
             forall ts, In ts types -> In t ts) ->
  minimumCommonUnion props = Some (ExcludeFromFirst (firstOf props) []) /\
  generateTSPickList [] 0 = EmptyString.
Proof.
  intros Htypes Hequal Hfirst Hsub. split; [|reflexivity].
  rewrite (minimumCommonUnion_unfold props types Htypes), Hequal.
  destruct (Nat.eqb (List.length (getArrayIntersection types)) 0) eqn:Hlen.
  - exfalso. apply getArrayIntersection_empty in Hlen. apply Hlen.
    destruct types as [|first others]; [discriminate Hequal|].
    simpl in Hfirst, Hsub. destruct first as [|t rest]; [congruence|].
    exists t. split; [now left|]. apply Hsub. now left.
  - do 2 f_equal.
    match goal with
    | |- ?l = [] => destruct l as [|t rest] eqn:Hrm; [reflexivity|]
    end.
    exfalso.
    assert (Ht : In t (t :: rest)) by now left.
    rewrite <- Hrm in Ht. apply typesToRemove_In in Ht.
    destruct Ht as [Hhd (ts & Hts & Hnot)]. now apply Hnot, Hsub.
Qed.

End AliasTypes.

Section TableProperties.

Context `{Imports}.

Import ObjFacts JsSetFacts IntersectionFacts HelperFacts HelperProperties.

(** [l] with [k] appended unless it is there already. *)
Definition snocNew (l : list string) (k : string) : list string :=
  if JsArray.includes l k then l else (l ++ [k])%list.

Lemma hasOwn_includes {V} (obj : Obj.t V) k :
  Obj.hasOwn obj k = JsArray.includes (Obj.keys obj) k.
Proof.
  unfold Obj.hasOwn, JsArray.includes.
  induction obj as [|[k' v] obj IH]; simpl; [reflexivity|].
  rewrite (String.eqb_sym k k'). now destruct (String.eqb k' k).
Qed.

Lemma has_includes d k : has k d = JsArray.includes (values d) k.
Proof.
  unfold has, JsArray.includes.
  induction d as [|[e|] d IH]; simpl; [reflexivity | | exact IH].
  now rewrite (String.eqb_sym k e), IH.
Qed.

Lemma keys_set_snocNew {V} (obj : Obj.t V) k v :
  Obj.keys (Obj.set obj k v) = snocNew (Obj.keys obj) k.
Proof. unfold snocNew. now rewrite keys_set, hasOwn_includes. Qed.

Lemma values_add_snocNew d k : values (add k d) = snocNew (values d) k.
Proof. unfold snocNew. now rewrite values_add, has_includes. Qed.

Lemma fold_add_snocNew elems :
  forall d,
    values (fold_left (fun s e => add e s) elems d)
    = fold_left snocNew elems (values d).
Proof.
  induction elems as [|e elems IH]; intros d; simpl; [reflexivity|].
  now rewrite IH, values_add_snocNew.
Qed.

Lemma push_aliases_keys prop names :
  forall acc,
    Obj.keys (fold_left (pushInverse prop) names acc)
    = fold_left snocNew names (Obj.keys acc).
Proof.
  induction names as [|name names IH]; intros acc; simpl; [reflexivity|].
  rewrite IH. unfold pushInverse. now rewrite keys_set_snocNew.
Qed.

Lemma inverse_fold_keys entries :
  forall acc,
    Obj.keys (fold_left inverseStep entries acc)
    = fold_left snocNew
                (List.concat (map (fun e => aliasesOrEmpty (snd e)) entries))
                (Obj.keys acc).
Proof.
  induction entries as [|[prop config] entries IH]; intros acc; simpl;
    [reflexivity|].
  now rewrite IH, fold_left_app, push_aliases_keys.
Qed.

Lemma keys_of_inverseAliases : Obj.keys inverseAliases = allAliases.
Proof.
  rewrite inverseAliases_fold, inverse_fold_keys.
  unfold allAliases, from, JsArray.flat, Obj.values.
  now rewrite fold_add_snocNew, map_map.
Qed.

(** X6: [inverseAliases] has an entry for exactly the aliases of
    [allAliases], each once: an alias is a key of [inverseAliases] exactly
    when [allAliases] includes it. *)
Theorem inverseAliases_keys :
  NoDup (Obj.keys inverseAliases) /\
  (forall alias, In alias (Obj.keys inverseAliases) <-> In alias allAliases) /\
  (forall alias,
      Obj.hasOwn inverseAliases alias = JsArray.includes allAliases alias).
Proof.
  split; [apply inverseAliases_wf|]. split.
  - intros alias. now rewrite keys_of_inverseAliases.
  - intros alias. now rewrite hasOwn_includes, keys_of_inverseAliases.
Qed.

(** The token group a prop ends with: that of the last group that lists
    it. *)
Definition lastGroup (groups : list (string * list string)) (prop : string)
  : option string :=
  fold_left
    (fun (found : option string) '(tokenGroup, props) =>
       if JsArray.includes props prop then Some tokenGroup else found)
    groups None.

Lemma assign_get tokenGroup props :
  forall (acc : Obj.t string) k,
    Obj.get (fold_left (fun acc' prop => Obj.set acc' prop tokenGroup)
                       props acc) k
    = if JsArray.includes props k then Some tokenGroup else Obj.get acc k.
Proof.
  induction props as [|p props IH]; intros acc k; simpl; [reflexivity|].
  rewrite IH, get_set. rewrite (String.eqb_sym k p).
  destruct (JsArray.includes props k); [now rewrite orb_true_r|].
  now rewrite orb_false_r.
Qed.

Lemma assign_wf tokenGroup props :
  forall (acc : Obj.t string),
    Obj.wf acc ->
    Obj.wf (fold_left (fun acc' prop => Obj.set acc' prop tokenGroup)
                      props acc).
Proof.
  induction props as [|p props IH]; intros acc Hacc; simpl; [assumption|].
  apply IH. now apply set_wf.
Qed.

Definition groupStep (acc : Obj.t string) (group : string * list string)
  : Obj.t string :=
  let '(tokenGroup, props) := group in
  fold_left (fun acc' prop => Obj.set acc' prop tokenGroup) props acc.

Lemma groups_get groups :
  forall acc k,
    Obj.get (fold_left groupStep groups acc) k
    = fold_left
        (fun (found : option string) '(tokenGroup, props) =>
           if JsArray.includes props k then Some tokenGroup else found)
        groups (Obj.get acc k).
Proof.
  induction groups as [|[g props] groups IH]; intros acc k; simpl;
    [reflexivity|].
  now rewrite IH, assign_get.
Qed.

Lemma groups_wf groups :
  forall acc, Obj.wf acc -> Obj.wf (fold_left groupStep groups acc).
Proof.
  induction groups as [|[g props] groups IH]; intros acc Hacc; simpl;
    [assumption|].
  apply IH. now apply assign_wf.
Qed.

Lemma cssPropsToTokenGroup_fold :
  cssPropsToTokenGroup
  = fold_left groupStep (Obj.entries tokenizedCSSStyleProps) [].
Proof. unfold cssPropsToTokenGroup. f_equal. Qed.

Lemma cssPropsToTokenGroup_wf : Obj.wf cssPropsToTokenGroup.
Proof. rewrite cssPropsToTokenGroup_fold. apply groups_wf. constructor. Qed.

Lemma lastGroup_skip groups prop found :
  (forall tokenGroup props,
      In (tokenGroup, props) groups -> ~ In prop props) ->
  fold_left
    (fun (found' : option string) '(tokenGroup, props) =>
       if JsArray.includes props prop then Some tokenGroup else found')
    groups found
  = found.
Proof.
  revert found. induction groups as [|[g props] groups IH]; intros found Hno;
    simpl; [reflexivity|].
  rewrite IH by (intros g' props' Hin; apply (Hno g'); now right).
  assert (Hnot : JsArray.includes props prop = false)
    by (apply JsArray.includes_not_In, (Hno g); now left).
  now rewrite Hnot.
Qed.

(** X7: [cssPropsToTokenGroup] maps a prop to the token group that lists
    it; when several groups list it, the one enumerated last wins; a prop
    that no group lists is not in the table. *)
Theorem cssPropsToTokenGroup_last_wins (prop : string) :
  Obj.get cssPropsToTokenGroup prop
  = lastGroup (Obj.entries tokenizedCSSStyleProps) prop /\
  (forall before tokenGroup props after,
      Obj.entries tokenizedCSSStyleProps
      = (before ++ (tokenGroup, props) :: after)%list ->
      In prop props ->
      (forall tokenGroup' props',
          In (tokenGroup', props') after -> ~ In prop props') ->
      Obj.get cssPropsToTokenGroup prop = Some tokenGroup) /\
  ((forall tokenGroup props,
       In (tokenGroup, props) (Obj.entries tokenizedCSSStyleProps) ->
       ~ In prop props) ->
   Obj.get cssPropsToTokenGroup prop = None).
Proof.
  assert (Hget : Obj.get cssPropsToTokenGroup prop
                 = lastGroup (Obj.entries tokenizedCSSStyleProps) prop).
  { rewrite cssPropsToTokenGroup_fold, groups_get. reflexivity. }
  split; [exact Hget|]. rewrite Hget. unfold lastGroup. split.
  - intros before g props after -> Hin Hafter.
    rewrite fold_left_app. simpl.
    apply JsArray.includes_In in Hin. rewrite Hin.
    now apply lastGroup_skip.
  - intros Hno. now apply lastGroup_skip.
Qed.

Lemma NoDup_keys_filter {V} (f : string * V -> bool) (obj : Obj.t V) :
  NoDup (map fst obj) -> NoDup (map fst (filter f obj)).
Proof.
  induction obj as [|[k v] obj IH]; simpl; intros Hnd; [constructor|].
  inversion Hnd as [|? ? Hnot Hnd']; subst.
  destruct (f (k, v)); simpl; [|now apply IH].
  constructor; [|now apply IH].
  intros Hin. apply Hnot. apply in_map_iff in Hin.
  destruct Hin as ([k' v'] & Hk & Hin). simpl in Hk. subst k'.
  apply filter_In in Hin. destruct Hin as [Hin _].
  change k with (fst (k, v')). now apply in_map.
Qed.

(** X8: the object literal [stylePropTokenGroupMap] has no key twice: the
    props of its longhand section are distinct, the aliases of its alias
    section are distinct, and no key is in both sections. *)
Theorem stylePropTokenGroupMap_keys :
  NoDup
    (map fst longhandTokenGroups ++
     map fst
       (filter (fun '(_, properties) =>
                  Obj.hasOwn cssPropsToTokenGroup (firstOf properties))
               (Obj.entries inverseAliases)))%list.
Proof.
  apply NoDup_app.
  - unfold longhandTokenGroups. apply NoDup_keys_filter.
    apply cssPropsToTokenGroup_wf.
  - apply NoDup_keys_filter. apply inverseAliases_wf.
  - intros k Hlong Halias.
    unfold longhandTokenGroups in Hlong. apply in_map_iff in Hlong.
    destruct Hlong as ([k' g] & Hk & Hin). simpl in Hk. subst k'.
    apply filter_In in Hin. destruct Hin as [_ Hcond].
    apply andb_true_iff in Hcond. destruct Hcond as [_ Hnot].
    apply negb_true_iff, JsArray.includes_not_In in Hnot. apply Hnot.
    rewrite <- keys_of_inverseAliases. apply in_map_iff in Halias.
    destruct Halias as ([k' props] & Hk & Hin). simpl in Hk. subst k'.
    apply filter_In in Hin. destruct Hin as [Hin _].
    unfold Obj.keys. change k with (fst (k, props)). now apply in_map.
Qed.

(** X9: when no alias collides with a csstype longhand property, the
    pick list of [DisallowedStandardLonghandProperties] is made of the
    quoted names of exactly the disallowed CSS properties that csstype
    knows: the aliases appended to the list add no name of their own. *)
Theorem disallowed_names_without_collision :
  aliasCollisions = [] ->
  exists names,
    disallowedPickList
    = generateTSPickList (map (fun prop => "'" ++ prop ++ "'") names) 2 /\
    forall name,
      In name names <->
      In name disallowedCSSProperties /\
      Obj.hasOwn cssLonghandProperties name = true.
Proof.
  intros Hnone.
  exists (filter (Obj.hasOwn cssLonghandProperties)
                 (disallowedCSSProperties ++ allAliases)%list).
  split; [reflexivity|].
  intros name. rewrite filter_In, in_app_iff. split.
  - intros [[Hdis|Halias] Hown]; [now split|]. split; [|assumption].
    destruct (JsArray.includes disallowedCSSProperties name) eqn:Hinc.
    + now apply JsArray.includes_In.
    + exfalso.
      assert (Hcol : In name aliasCollisions); [|now rewrite Hnone in Hcol].
      unfold aliasCollisions. apply filter_In. split.
      * now apply hasOwn_In.
      * rewrite Hinc. simpl. now apply JsArray.includes_In.
  - intros [Hdis Hown]. split; [now left | assumption].
Qed.

(** X10: in [inverseAliases] no alias has an empty list, and every prop
    listed is configured with aliases: [styleProps[0]] is defined and
    [stylePropConfig[prop].aliases.map(...)] does not throw when the members
    of [StylePropAliases] are written. *)
Theorem inverse_entries_defined (alias : string) (props : list string) :
  Obj.get inverseAliases alias = Some props ->
  (exists first others, props = first :: others /\ firstOf props = first) /\
  forall prop, In prop props -> exists chain, fallbackChain prop = Some chain.
Proof.
  intros Hget. split.
  - pose proof (inverseAliases_filled _ _ Hget) as Hne.
    destruct props as [|first others]; [congruence|].
    now exists first, others.
  - intros prop Hprop.
    pose proof (fallbackChain_Some alias props prop stylePropConfig_object
                  (get_In _ _ _ Hget) Hprop) as Hsome.
    destruct (fallbackChain prop) as [chain|]; [now exists chain | congruence].
Qed.

End TableProperties.

Section RunProperties.

Context `{Imports}.

Import ObjFacts IntersectionFacts.

Lemma forallb_false {A} (f : A -> bool) l :
  forallb f l = false -> exists x, In x l /\ f x = false.
Proof.
  induction l as [|x l IH]; simpl; [discriminate|].
  intros Hf. apply andb_false_iff in Hf. destruct Hf as [Hx|Hl].
  - exists x. split; [now left | assumption].
  - destruct (IH Hl) as (y & Hy & Hfy). exists y. split; [now right | assumption].
Qed.

Lemma unknown_prop_throws :
  aliasedPropsKnown = false -> typeMismatches = None.
Proof.
  intros Hunknown. unfold aliasedPropsKnown in Hunknown.
  apply forallb_false in Hunknown.
  destruct Hunknown as ([prop config] & Hentry & Hcond). simpl in Hcond.
  apply orb_false_iff in Hcond. destruct Hcond as [Hhas Hown].
  apply negb_false_iff in Hhas. unfold hasAliases in Hhas.
  destruct (aliases config) as [names|] eqn:Hnames; [|discriminate].
  apply nonEmpty_In in Hhas. destruct Hhas as [alias Halias].
  assert (Hpushed : In prop (pushedFor alias (Obj.entries stylePropConfig))).
  { apply pushedFor_In. exists config. split; [assumption|].
    unfold aliasesOrEmpty. now rewrite Hnames. }
  assert (Hget : Obj.get inverseAliases alias
                 = Some (pushedFor alias (Obj.entries stylePropConfig))).
  { apply inverseAliases_get. split; [reflexivity|].
    intros Hnil. now rewrite Hnil in Hpushed. }
  destruct typeMismatches as [mismatches|] eqn:Hm; [|reflexivity].
  apply typeMismatches_Some in Hm. destruct Hm as [Hknown _].
  specialize (Hknown _ _ (get_In _ _ _ Hget) prop Hpushed). congruence.
Qed.

Lemma main_throws (w : World) :
  (fst (main w) = UncaughtTypeError <-> aliasedPropsKnown = false) /\
  (fst (main w) = UncaughtTypeError -> snd (main w) = w) /\
  (aliasedPropsKnown = true ->
   fst (main w) = Normal tt \/ fst (main w) = ProcessExit (-1)).
Proof.
  destruct aliasedPropsKnown eqn:Hknown.
  - pose proof (aliasedPropsKnown_known Hknown) as Hall.
    assert (Hm : typeMismatches
                 = Some (mismatchesIn (Obj.entries inverseAliases)))
      by (apply typeMismatches_Some; now split).
    assert (Hends : fst (main w) = Normal tt \/ fst (main w) = ProcessExit (-1)).
    { rewrite main_emit.
      destruct (nonEmpty aliasCollisions
                || nonEmpty (mismatchesIn (Obj.entries inverseAliases)))
        eqn:Hany.
      - destruct (verifyAliases_exits w _ Hm Hany) as (printed & _ & ->).
        now right.
      - rewrite (verifyAliases_passes w _ Hm Hany).
        pose proof (tsText_Some stylePropConfig_object Hall) as Hts.
        destruct tsText as [ts|] eqn:Htext; [|congruence].
        destruct (emit_run w ts Htext) as (w' & -> & _). now left. }
    split; [|split; [|intros _; exact Hends]].
    + split; [|discriminate].
      intros Hthrow. destruct Hends as [He|He]; rewrite He in Hthrow;
        discriminate.
    + intros Hthrow. destruct Hends as [He|He]; rewrite He in Hthrow;
        discriminate.
  - pose proof (unknown_prop_throws Hknown) as Hm.
    rewrite main_emit, (verifyAliases_throws w Hm). simpl.
    split; [split; reflexivity|]. split; [reflexivity | discriminate].
Qed.

(** X11: the module ends by an uncaught [TypeError] exactly when some alias
    has the name of a member of [Object.prototype], which throws while
    [inverseAliases] is built, or some style prop that has aliases is not a
    property of [cssLonghandProperties], which throws inside
    [verifyAliases]; in both cases no file has been opened or written. *)
Theorem program_throws_iff (w : World) :
  (fst (program w) = UncaughtTypeError <->
   inheritedAlias = true \/ aliasedPropsKnown = false) /\
  (fst (program w) = UncaughtTypeError ->
   files (snd (program w)) = files w /\ fsLog (snd (program w)) = fsLog w).
Proof.
  rewrite program_run. destruct (main_throws w) as (Hiff & Hsame & _).
  destruct inheritedAlias.
  - simpl. split; [split; [now left | reflexivity] | now split].
  - split.
    + rewrite Hiff. split; [now right | intros [Hf|Hk]; [discriminate | exact Hk]].
    + intros Hthrow. now rewrite (Hsame Hthrow).
Qed.





End RunProperties.

Section StyleSheetProperties.

Context `{Imports}.

Lemma replace_unfold pat rep s :
  replace pat rep s =
  if String.prefix pat s
  then rep ++ String.substring (String.length pat)
                               (String.length s - String.length pat) s
  else match s with
       | EmptyString => EmptyString
       | String c rest => String c (replace pat rep rest)
       end.
Proof. destruct s; reflexivity. Qed.

Lemma prefix_append pat s : String.prefix pat (pat ++ s) = true.
Proof.
  induction pat as [|c pat IH]; simpl; [now destruct s|].
  destruct (ascii_dec c c); [exact IH | contradiction].
Qed.

Lemma substring_all s : String.substring 0 (String.length s) s = s.
Proof. induction s as [|c s IH]; simpl; [reflexivity | now rewrite IH]. Qed.

Lemma substring_append pat s :
  String.substring (String.length pat)
                   (String.length (pat ++ s) - String.length pat) (pat ++ s)
  = s.
Proof.
  induction pat as [|c pat IH]; simpl.
  - rewrite Nat.sub_0_r. apply substring_all.
  - exact IH.
Qed.

(** [key.replace(prefix, '')] on a key that starts with the prefix. *)
Lemma replace_prefix pat s : replace pat EmptyString (pat ++ s) = s.
Proof.
  rewrite replace_unfold, prefix_append, substring_append. reflexivity.
Qed.

(** X13: [breakpoints] keeps the breakpoints of the theme in their order
    and gives each the bare size as its key: the entry
    [breakpoints-<size>] becomes the breakpoint with key [<size>] and the
    value converted by [toPx]. *)
Theorem breakpoints_strip_prefix (i : nat) (size breakpointValue : string) :
  nth_error (Obj.entries metaThemeDefault_breakpoints) i
  = Some ("breakpoints-" ++ size, breakpointValue) ->
  nth_error breakpoints i
  = Some {| key := size; value := toPx breakpointValue |} /\
  List.length breakpoints
  = List.length (Obj.entries metaThemeDefault_breakpoints).
Proof.
  intros Hentry. unfold breakpoints. split; [|apply length_map].
  rewrite nth_error_map, Hentry. unfold option_map. cbv beta iota.
  now rewrite (replace_prefix "breakpoints-" size).
Qed.

Lemma string_app_assoc (a b c : string) : (a ++ b) ++ c = a ++ b ++ c.
Proof. induction a as [|x a IH]; simpl; [reflexivity | now rewrite IH]. Qed.

(** X14: in the style sheet, a declaration of a modifier rule either is
    the one of the base key, with no value, or refers through [var()] to a
    custom property [--<namespace><key>] for which the defaults of [.Box]
    have the line [--<namespace><key>: initial;] and the media queries have
    a rule that sets [--<namespace><key>]: no reference of a modifier rule
    dangles. *)
Theorem modifier_references_declared (modifiers : Obj.t string) :
  exists initials rules modifierDefaults,
    defaults modifiers
    = endent [LF ++ "    "; LF ++ LF ++ "    "; LF ++ "  "]
             [JsArray.join LF initials; modifierDefaults] /\
    mediaQueries = JsArray.join LF rules /\
    selectorsEnabled modifiers
    = JsArray.join (LF ++ LF)
        (map (fun '(selector, modifierName) =>
                endent
                  [LF ++ "        .Box"; " {" ++ LF ++ "          ";
                   LF ++ "        }"]
                  [selector;
                   JsArray.join LF
                     (map (modifierLine modifierName) breakpointsWithBaseXs)])
             (Obj.entries modifiers)) /\
    forall modifierName b,
      In b breakpointsWithBaseXs ->
      (key b = EmptyString /\
       modifierLine modifierName b
       = "--" ++ cssCustomPropertyNamespace ++ modifierName ++ ": ;")
      \/
      (key b <> EmptyString /\
       modifierLine modifierName b
       = "--" ++ cssCustomPropertyNamespace ++ key b ++ modifierName
           ++ ": var(--" ++ cssCustomPropertyNamespace ++ key b ++ ");" /\
       In ("--" ++ cssCustomPropertyNamespace ++ key b ++ ": initial;")
          initials /\
       In ("@media screen and (min-width: " ++ interpolate (value b)
             ++ ") { .Box { --" ++ cssCustomPropertyNamespace ++ key b
             ++ ": ; } }")
          rules).
Proof.
  exists (map initialLine breakpointsWithoutXs),
         (map mediaQuery breakpointsWithoutXs).
  eexists. split; [reflexivity|]. split; [reflexivity|].
  split; [reflexivity|].
  intros modifierName b Hin. unfold modifierLine.
  destruct (String.eqb_spec (key b) baseBreakpointKey) as [Hbase|Hother].
  - left. unfold baseBreakpointKey in Hbase. split; [assumption|].
    rewrite Hbase. reflexivity.
  - right. unfold baseBreakpointKey in Hother. split; [assumption|].
    split.
    + simpl. do 2 f_equal. rewrite !string_app_assoc. reflexivity.
    + destruct Hin as [<-|Hin]; [now contradiction Hother|].
      split.
      * change (In (initialLine b) (map initialLine breakpointsWithoutXs)).
        now apply in_map.
      * change (In (mediaQuery b) (map mediaQuery breakpointsWithoutXs)).
        now apply in_map.
Qed.

End StyleSheetProperties.

Module ToastProperties.

Import Toast.

(** X15: the delay that the Toast passes to [setTimeout] is never falsy:
    it is not zero and not NaN, whatever the props. *)
Theorem timeout_is_truthy (props : ToastProps) :
  truthy (Some (timeoutDuration props)) = true.
Proof.
  unfold timeoutDuration, effect, orDefault.
  destruct props as [[d|] [a|]]; simpl;
    try (destruct (negb (PrimFloat.eqb d 0 || PrimFloat.is_nan d)) eqn:Ht;
         simpl);
    try (destruct (PrimFloat.ltb d DEFAULT_TOAST_DURATION_WITH_ACTION);
         simpl);
    try exact Ht; reflexivity.
Qed.

(** X16: the Toast logs its warning exactly when an action is provided and
    the delay it then uses is below 10000 milliseconds; without an action
    it logs nothing. *)
Theorem warning_iff_short_with_action (props : ToastProps) :
  logged props
  = (if provided (action props)
        && PrimFloat.ltb (timeoutDuration props)
                         DEFAULT_TOAST_DURATION_WITH_ACTION
     then [warning] else []).
Proof.
  unfold logged, timeoutDuration, effect, orDefault, belowActionDefault.
  destruct props as [[d|] [a|]]; simpl; try reflexivity.
  destruct (negb (PrimFloat.eqb d 0 || PrimFloat.is_nan d)); simpl.
  - destruct (PrimFloat.ltb d DEFAULT_TOAST_DURATION_WITH_ACTION) eqn:Hlt;
      simpl; now rewrite Hlt.
  - reflexivity.
Qed.

End ToastProperties.

(** * The further properties on the sample inputs *)

Module MoreSampleRuns.

Import Sample.

(** A csstype table in which the type list of [rowGap] is strictly inside
    the type list of [columnGap]. *)
Definition nestedLonghands : Obj.t LonghandProperty :=
  [("rowGap", {| jsDoc := "The row-gap property."; type := ["'normal'"] |});
   ("columnGap",
    {| jsDoc := "The column-gap property.";
       type := ["'normal'"; "(string & {})"] |})].

Definition nestedImports : Imports :=
  make config config_object nestedLonghands.

Example nested_alias_type :
  @createMinimumCommonUnionForAlias nestedImports ["rowGap"; "columnGap"]
  = Some (LF ++ "      Exclude<" ++ LF
             ++ "          LonghandStyleProps['rowGap']," ++ LF
             ++ "          " ++ LF ++ "        >" ++ LF ++ "    ").
Proof. vm_compute. reflexivity. Qed.

Example token_groups_of_sample :
  @cssPropsToTokenGroup imports
  = [("rowGap", "space"); ("columnGap", "space"); ("gap", "space")] /\
  @longhandTokenGroups imports
  = [("rowGap", "space"); ("columnGap", "space")].
Proof. vm_compute. split; reflexivity. Qed.

Lemma minimumCommonUnion_spec_sample :
  @typesOf mismatchedImports ["rowGap"; "zIndex"]
  = Some [["'normal'"; "(string & {})"]; ["'auto'"; "(number & {})"]] /\
  @aliasTypeRule mismatchedImports ["rowGap"; "zIndex"]
    [["'normal'"; "(string & {})"]; ["'auto'"; "(number & {})"]] /\
  @typesOf imports ["rowGap"; "display"]
  = Some [gapType; ["Globals"; "'block'"; "'flex'"]] /\
  @aliasTypeRule imports ["rowGap"; "display"]
    [gapType; ["Globals"; "'block'"; "'flex'"]].
Proof.
  split; [vm_compute; reflexivity|]. split.
  - apply (@minimumCommonUnion_spec mismatchedImports ["rowGap"; "zIndex"]).
    vm_compute. reflexivity.
  - split; [vm_compute; reflexivity|].
    apply (@minimumCommonUnion_spec imports ["rowGap"; "display"]).
    vm_compute. reflexivity.
Defined.

Example alias_type_rule_branches :
  @minimumCommonUnion mismatchedImports ["rowGap"; "zIndex"] = Some Never /\
  @minimumCommonUnion imports ["rowGap"; "columnGap"]
  = Some (SameAsFirst "rowGap").
Proof. vm_compute. split; reflexivity. Qed.

Lemma minimumCommonUnion_empty_exclusion_sample :
  @typesOf nestedImports ["rowGap"; "columnGap"]
  = Some [["'normal'"]; ["'normal'"; "(string & {})"]] /\
  arraysAreEqualSets [["'normal'"]; ["'normal'"; "(string & {})"]] = false /\
  @minimumCommonUnion nestedImports ["rowGap"; "columnGap"]
  = Some (ExcludeFromFirst (firstOf ["rowGap"; "columnGap"]) []) /\
  generateTSPickList [] 0 = EmptyString.
Proof.
  split; [vm_compute; reflexivity|]. split; [vm_compute; reflexivity|].
  apply (@minimumCommonUnion_empty_exclusion nestedImports
           ["rowGap"; "columnGap"]
           [["'normal'"]; ["'normal'"; "(string & {})"]]).
  - vm_compute. reflexivity.
  - vm_compute. reflexivity.
  - simpl. discriminate.
  - simpl. intros t [<-|[]] ts [<-|[<-|[]]]; simpl; tauto.
Defined.

(** A csstype table in which the alias [gap] is also a longhand
    property; it is disallowed, so it does not collide. *)
Definition gapImports : Imports :=
  make config config_object
       (longhands ++
        [("gap", {| jsDoc := "The gap property."; type := gapType |})])%list.

Lemma disallowed_names_sample :
  @aliasCollisions gapImports = [] /\
  @disallowedPickList gapImports = "'gap'" ++ LF ++ "  | 'gap'" /\
  exists names,
    @disallowedPickList gapImports
    = generateTSPickList (map (fun prop => "'" ++ prop ++ "'") names) 2 /\
    forall name,
      In name names <->
      In name (@disallowedCSSProperties gapImports) /\
      Obj.hasOwn (@cssLonghandProperties gapImports) name = true.
Proof.
  split; [vm_compute; reflexivity|]. split; [vm_compute; reflexivity|].
  apply (@disallowed_names_without_collision gapImports).
  vm_compute. reflexivity.
Defined.

Lemma inverse_entries_defined_sample :
  Obj.get (@inverseAliases imports) "gap" = Some ["rowGap"; "columnGap"] /\
  (exists first others,
      ["rowGap"; "columnGap"] = first :: others /\
      firstOf ["rowGap"; "columnGap"] = first) /\
  forall prop,
    In prop ["rowGap"; "columnGap"] ->
    exists chain, @fallbackChain imports prop = Some chain.
Proof.
  split; [vm_compute; reflexivity|].
  apply (@inverse_entries_defined imports "gap"). vm_compute. reflexivity.
Defined.


Lemma breakpoints_strip_prefix_sample :
  nth_error (Obj.entries (@metaThemeDefault_breakpoints imports)) 1
  = Some ("breakpoints-" ++ "sm", "30.625rem") /\
  nth_error (@breakpoints imports) 1
  = Some {| key := "sm"; value := @toPx imports "30.625rem" |} /\
  List.length (@breakpoints imports)
  = List.length (Obj.entries (@metaThemeDefault_breakpoints imports)).
Proof.
  split; [vm_compute; reflexivity|].
  apply (@breakpoints_strip_prefix imports 1 "sm" "30.625rem").
  vm_compute. reflexivity.
Defined.

(** A configuration whose alias has the name of a method that every
    object inherits. *)
Definition inheritedConfig : Obj.t (StyleProp string) :=
  [("rowGap", {| aliases := Some ["toString"]; getDefault := NoDefault |})].

Lemma inheritedConfig_object : Obj.wf inheritedConfig.
Proof.
  unfold Obj.wf. simpl. constructor; [intros [] | constructor].
Qed.

Definition inheritedImports : Imports :=
  make inheritedConfig inheritedConfig_object longhands.

Example inherited_alias_throws_at_load :
  @loadInverseAliases inheritedImports = None /\
  @aliasedPropsKnown inheritedImports = true /\
  fst (@program inheritedImports blank) = UncaughtTypeError /\
  fsLog (snd (@program inheritedImports blank)) = [].
Proof. vm_compute. repeat split. Qed.

Example sample_program_completes :
  @loadInverseAliases imports = Some (@inverseAliases imports) /\
  fst (@program imports blank) = Normal tt /\
  fst (@program collidingImports blank) = ProcessExit (-1).
Proof. vm_compute. repeat split. Qed.


Example sample_modifier_lines :
  map (@modifierLine imports "_hover") (@breakpointsWithBaseXs imports)
  = ["--__hover: ;"; "--_sm_hover: var(--_sm);"; "--_md_hover: var(--_md);"] /\
  map (@initialLine imports) (@breakpointsWithoutXs imports)
  = ["--_sm: initial;"; "--_md: initial;"].
Proof. vm_compute. split; reflexivity. Qed.

End MoreSampleRuns.
